(** * dataherald: context store, request validation and generation records

    A shallow embedding of
      - [dataherald/types.py]: the pydantic models, the [ObjectId] check on
        [db_connection_id] and the defaults of [SQLGeneration];
      - [dataherald/context_store/default.py]: [DefaultContextStore], which
        orchestrates the record repository (Mongo) and the vector index.

    Python exceptions do not roll back what was written before they were
    raised, so stateful code lives in a state-and-exception monad whose
    failures keep the state reached so far.  Every call made on a
    collaborator is also appended to a trace, which is what the ordering and
    read-only statements are about. *)

From Stdlib Require Import ZArith QArith Ascii String List Lia.
From stdpp Require Import base option list strings gmap fin_maps pretty.

Import ListNotations.
Local Open Scope string_scope.
Local Open Scope Z_scope.
Local Open Scope list_scope.

(** ** bson.objectid.ObjectId on a [str]

    [ObjectId.__validate] for a [str]: the length has to be 24 and
    [bytes.fromhex] has to succeed; otherwise [InvalidId] is raised.
    [bytes.fromhex] reads pairs of hexadecimal digits of either case and
    skips ASCII whitespace in front of a pair. *)

Module Bson.

Definition hex_value (c : ascii) : option N :=
  let n := N_of_ascii c in
  if ((48 <=? n) && (n <=? 57))%N then Some (n - 48)%N
  else if ((97 <=? n) && (n <=? 102))%N then Some (n - 87)%N
  else if ((65 <=? n) && (n <=? 70))%N then Some (n - 55)%N
  else None.

Definition is_hex (c : ascii) : bool :=
  match hex_value c with Some _ => true | None => false end.

Definition is_lower_hex (c : ascii) : bool :=
  let n := N_of_ascii c in
  (((48 <=? n) && (n <=? 57)) || ((97 <=? n) && (n <=? 102)))%N.

(** [Py_ISSPACE]: space, and the controls 9 to 13. *)
Definition is_space (c : ascii) : bool :=
  let n := N_of_ascii c in
  ((n =? 32) || ((9 <=? n) && (n <=? 13)))%N.

Fixpoint fromhex (s : string) : option (list N) :=
  match s with
  | EmptyString => Some []
  | String c rest =>
      if is_space c then fromhex rest
      else
        match hex_value c, rest with
        | Some top, String d rest' =>
            match hex_value d with
            | Some bot =>
                match fromhex rest' with
                | Some bs => Some ((top * 16 + bot)%N :: bs)
                | None => None
                end
            | None => None
            end
        | _, _ => None
        end
  end.

Inductive InvalidId := invalid_id (oid : string).

(** [ObjectId(oid)] for a [str] argument: the 12 bytes, or [InvalidId]. *)
Definition ObjectId (oid : string) : InvalidId + list N :=
  if (String.length oid =? 24)%nat then
    match fromhex oid with
    | Some bs => inr bs
    | None => inl (invalid_id oid)
    end
  else inl (invalid_id oid).

End Bson.

(** ** dataherald/types.py *)

(** [dict | None] metadata; [datetime] as a timestamp. *)
Definition Metadata := option (list (string * string)).
Definition datetime := Z.

(** What pydantic reports for one field. *)
Inductive FieldError :=
| ValueError (field msg : string)
| MinLengthError (field : string) (limit : nat).

(** A model either validates or raises [ValidationError] with the errors of
    its fields, in field order. *)
Inductive Validated (A : Type) :=
| Valid (a : A)
| ValidationError (errors : list FieldError).
Arguments Valid {A} a.
Arguments ValidationError {A} errors.

Module DBConnectionValidation.

(** The validator of [db_connection_id]: the value itself, or
    [ValueError("Must be a valid ObjectId")]. *)
Definition object_id_validation (v : string) : string + string :=
  match Bson.ObjectId v with
  | inr _ => inr v
  | inl _ => inl "Must be a valid ObjectId"
  end.

Definition field_errors (v : string) : list FieldError :=
  match object_id_validation v with
  | inr _ => []
  | inl msg => [ValueError "db_connection_id" msg]
  end.

Record t := { db_connection_id : string }.

Definition parse (v : string) : Validated t :=
  match field_errors v with
  | [] => Valid {| db_connection_id := v |}
  | errs => ValidationError errs
  end.

End DBConnectionValidation.

(** A [str] of Python is kept as its UTF-8 encoding. [len] counts its code
    points: the bytes that do not continue a character, those outside
    0x80..0xBF. *)
Definition is_continuation (c : ascii) : bool :=
  let n := N_of_ascii c in ((128 <=? n) && (n <? 192))%N.

Fixpoint len (s : string) : nat :=
  match s with
  | EmptyString => O
  | String c rest => if is_continuation c then len rest else S (len rest)
  end.

(** [Field(None, min_length=3)]: an omitted field keeps its default [None]
    unchecked; a given one needs [len] at least [limit]. *)
Definition min_length_errors (field : string) (limit : nat) (v : option string)
  : list FieldError :=
  match v with
  | Some s => if (len s <? limit)%nat then [MinLengthError field limit] else []
  | None => []
  end.

Definition validated {A : Type} (errs : list FieldError) (a : A) : Validated A :=
  match errs with
  | [] => Valid a
  | _ => ValidationError errs
  end.

Module InstructionRequest.

Record t := {
  db_connection_id : string;
  instruction : option string;
  metadata : Metadata }.

Definition parse (conn : string) (instr : option string) (md : Metadata) : Validated t :=
  validated
    (DBConnectionValidation.field_errors conn ++ min_length_errors "instruction" 3 instr)
    {| db_connection_id := conn; instruction := instr; metadata := md |}.

End InstructionRequest.

Module ScannerRequest.

Record t := {
  db_connection_id : string;
  table_names : option (list string);
  metadata : Metadata }.

Definition parse (conn : string) (tables : option (list string)) (md : Metadata)
  : Validated t :=
  validated (DBConnectionValidation.field_errors conn)
    {| db_connection_id := conn; table_names := tables; metadata := md |}.

End ScannerRequest.

Module GoldenSQLRequest.

Record t := {
  db_connection_id : string;
  question : option string;
  sql_query : option string;
  created_at : datetime;
  metadata : Metadata }.

(** The names of the fields, the inherited one first. *)
Definition fields : list string :=
  ["db_connection_id"; "question"; "sql_query"; "created_at"; "metadata"].

Definition parse (conn : string) (q s : option string) (now : datetime) (md : Metadata)
  : Validated t :=
  validated
    (DBConnectionValidation.field_errors conn
       ++ min_length_errors "question" 3 q ++ min_length_errors "sql_query" 3 s)
    {| db_connection_id := conn; question := q; sql_query := s;
       created_at := now; metadata := md |}.

End GoldenSQLRequest.

Module GoldenSQL.
Record t := {
  id : option string;
  prompt_text : string;
  sql : string;
  db_connection_id : string;
  created_at : datetime;
  metadata : Metadata }.
End GoldenSQL.

Module Instruction.
Record t := {
  id : option string;
  instruction : string;
  db_connection_id : string;
  created_at : datetime;
  metadata : Metadata }.
End Instruction.

Module Prompt.
Record t := {
  id : option string;
  text : string;
  db_connection_id : string;
  created_at : datetime;
  metadata : Metadata }.
End Prompt.

Inductive SQLGenerationStatus := NONE | VALID | INVALID.

Module SQLGenerationStatus_.
(** The value of each member of the enum. *)
Definition value (s : SQLGenerationStatus) : string :=
  match s with NONE => "NONE" | VALID => "VALID" | INVALID => "INVALID" end.
End SQLGenerationStatus_.

Module SQLGeneration.

Record t := {
  id : option string;
  prompt_id : string;
  model : option string;
  evaluate : bool;
  sql : option string;
  status : string;
  completed_at : option datetime;
  tokens_used : option Z;
  confidence_score : option Q;
  error : option string;
  created_at : datetime;
  metadata : Metadata }.

(** The keyword arguments a caller may pass; [prompt_id] is the one
    required field, [created_at] defaults to [datetime.now]. *)
Record kwargs := {
  kw_id : option string;
  kw_model : option string;
  kw_evaluate : option bool;
  kw_sql : option string;
  kw_status : option string;
  kw_completed_at : option datetime;
  kw_tokens_used : option Z;
  kw_confidence_score : option Q;
  kw_error : option string;
  kw_created_at : option datetime;
  kw_metadata : Metadata }.

Definition no_kwargs : kwargs :=
  {| kw_id := None; kw_model := None; kw_evaluate := None; kw_sql := None;
     kw_status := None; kw_completed_at := None; kw_tokens_used := None;
     kw_confidence_score := None; kw_error := None; kw_created_at := None;
     kw_metadata := None |}.

Definition with_status (s : string) : kwargs :=
  {| kw_id := None; kw_model := None; kw_evaluate := None; kw_sql := None;
     kw_status := Some s; kw_completed_at := None; kw_tokens_used := None;
     kw_confidence_score := None; kw_error := None; kw_created_at := None;
     kw_metadata := None |}.

(** [SQLGeneration(prompt_id=..., **kw)]: [status] is a plain [str] field
    with default ["INVALID"]; no validator is attached to it. *)
Definition create (now : datetime) (pid : string) (kw : kwargs) : t :=
  {| id := kw_id kw;
     prompt_id := pid;
     model := kw_model kw;
     evaluate := default false (kw_evaluate kw);
     sql := kw_sql kw;
     status := default "INVALID" (kw_status kw);
     completed_at := kw_completed_at kw;
     tokens_used := kw_tokens_used kw;
     confidence_score := kw_confidence_score kw;
     error := kw_error kw;
     created_at := default now (kw_created_at kw);
     metadata := kw_metadata kw |}.

End SQLGeneration.

(** ** dataherald/context_store/default.py

    default.py imports [ContextFile] from dataherald.types, where types.py
    declares no such class. [add_golden_sqls] takes the [GoldenSQLRequest]
    of types.py and reads [record.sql] and [record.prompt_text] from it,
    names that the class does not declare (its text fields are [sql_query]
    and [question]): these reads raise [AttributeError]. *)

(** Modelled from the spec: the [ContextFile] entity imported by default.py
    and absent from types.py, "ContextFile: {id, file_name,
    db_connection_id}". *)
Module ContextFile.
Record t := {
  id : string;
  file_name : string;
  db_connection_id : string }.
End ContextFile.

(** What a vector collection keeps for one id. *)
Record VectorRecord := {
  vr_document : string;
  vr_db_connection_id : string;
  vr_metadata : gmap string string }.

(** One element of the ranked answer of a similarity query. *)
Record Match := {
  m_id : string;
  m_score : Q;
  m_metadata : gmap string string }.

(** The dicts built by [retrieve_context_for_question]. *)
Record Sample := {
  sample_prompt_text : string;
  sample_sql : string;
  sample_score : Q }.

Record InstructionDict := { instruction_text : string }.

(** Calls made on the collaborators and on the logger, in program order. *)
Inductive Call :=
| VsQuery (query_texts : list string) (db_connection_id collection : string) (num_results : Z)
| VsAddRecords (golden_sqls : list GoldenSQL.t) (collection : string)
| VsAddRecord (document db_connection_id collection : string)
    (metadata : gmap string string) (id : string)
| VsDeleteRecord (collection id : string)
| VsDeleteRecordByMetadata (collection : string) (metadata : gmap string string)
| RepoInsert (golden_sql : GoldenSQL.t)
| RepoFindById (id : string)
| RepoDeleteById (id : string)
| RepoFindAll
| LogInfo (msg : string)
| LogWarning (msg : string).

Definition is_read (c : Call) : bool :=
  match c with
  | VsQuery _ _ _ _ | RepoFindById _ | RepoFindAll => true
  | _ => false
  end.

Definition is_log (c : Call) : bool :=
  match c with
  | LogInfo _ | LogWarning _ => true
  | _ => false
  end.

(** [self.db], [self.vector_store], the clock behind [datetime.now] and the
    trace. The vector index is keyed by collection name and record id. *)
Record World := {
  golden_sqls : list GoldenSQL.t;
  instructions : list Instruction.t;
  inserted : nat;
  vector_store : gmap (string * string) VectorRecord;
  now : datetime;
  trace : list Call }.

(** The exceptions of the store; [SqlMetadataError] stands for whatever
    [Parser(sql).tables] of sql_metadata raises. All of them are instances
    of [Exception]. *)
Inductive Exn :=
| MalformedGoldenSQLError (msg : string)
| KeyError (key : string)
| AttributeError (msg : string)
| SqlMetadataError.

Inductive Outcome (A : Type) :=
| Returns (a : A)
| Raises (e : Exn).
Arguments Returns {A} a.
Arguments Raises {A} e.

(** A computation runs from a world to an outcome and the world it leaves;
    an exception leaves the world as it was when it was raised. *)
Definition M (A : Type) : Type := World → Outcome A * World.

#[global] Instance M_ret : MRet M := λ A a w, (Returns a, w).

#[global] Instance M_bind : MBind M := λ A B f m w,
  match m w with
  | (Returns a, w') => f a w'
  | (Raises e, w') => (Raises e, w')
  end.

Definition raise {A : Type} (e : Exn) : M A := λ w, (Raises e, w).

(** [try: body / except Exception as e: handler e]. *)
Definition try_except {A : Type} (body : M A) (handler : Exn → M A) : M A := λ w,
  match body w with
  | (Raises e, w') => handler e w'
  | returned => returned
  end.

Definition get_world : M World := λ w, (Returns w, w).

Definition set_now (t : datetime) : M unit := λ w,
  (Returns tt,
   {| golden_sqls := golden_sqls w; instructions := instructions w;
      inserted := inserted w; vector_store := vector_store w; now := t;
      trace := trace w |}).

Definition call (c : Call) : M unit := λ w,
  (Returns tt,
   {| golden_sqls := golden_sqls w; instructions := instructions w;
      inserted := inserted w; vector_store := vector_store w; now := now w;
      trace := trace w ++ [c] |}).

Definition set_golden_sqls (gs : list GoldenSQL.t) (n : nat) : M unit := λ w,
  (Returns tt,
   {| golden_sqls := gs; instructions := instructions w;
      inserted := n; vector_store := vector_store w; now := now w;
      trace := trace w |}).

Definition set_vector_store (vs : gmap (string * string) VectorRecord) : M unit := λ w,
  (Returns tt,
   {| golden_sqls := golden_sqls w; instructions := instructions w;
      inserted := inserted w; vector_store := vs; now := now w;
      trace := trace w |}).

Definition logger_info (msg : string) : M unit := call (LogInfo msg).
Definition logger_warning (msg : string) : M unit := call (LogWarning msg).

(** The string ["\n"] of Python. *)
Definition newline : string := String (ascii_of_nat 10) EmptyString.

(** Whether a record of the vector index carries every key of a metadata
    predicate with the same value. *)
Definition metadata_matches (predicate : gmap string string) (r : VectorRecord) : bool :=
  bool_decide (predicate ⊆ vr_metadata r).

Section DefaultContextStore.

(** [Parser(sql).tables] of sql_metadata: [true] when it returns, [false]
    when it raises. *)
Variable Parser_tables : string → bool.

(** How the clock moves between two readings of [datetime.now]. *)
Variable later : datetime → datetime.

(** [RecursiveCharacterTextSplitter(chunk_size, chunk_overlap,
    length_function=len, is_separator_regex=False).create_documents([content])]
    of langchain, as the [page_content] of the documents it returns. *)
Variable create_documents : Z → Z → string → list string.

(** The ranking of the vector index: what a similarity query answers on
    given contents. *)
Variable similarity :
  gmap (string * string) VectorRecord → list string → string → string → Z → list Match.

(** The identifier the record store gives to its n-th insert. *)
Variable new_id : nat → string.

(** [self.golden_sql_collection] and [self.context_files_collection]. *)
Variable golden_sql_collection : string.
Variable context_files_collection : string.

(** *** The collaborators *)

(** Modelled from the spec: [GoldenSQLRepository] and
    [InstructionRepository] (dataherald.repositories), "insert(entity) →
    entity_with_id, find_by_id(id) → entity | absent, find_all() →
    sequence<entity>, delete_by_id(id) → count_deleted". *)
Definition assign_id (g : GoldenSQL.t) (n : nat) : GoldenSQL.t :=
  {| GoldenSQL.id := Some (new_id n);
     GoldenSQL.prompt_text := GoldenSQL.prompt_text g;
     GoldenSQL.sql := GoldenSQL.sql g;
     GoldenSQL.db_connection_id := GoldenSQL.db_connection_id g;
     GoldenSQL.created_at := GoldenSQL.created_at g;
     GoldenSQL.metadata := GoldenSQL.metadata g |}.

(** Modelled from the spec: the match of [find_by_id] and [delete_by_id]
    of [GoldenSQLRepository], on the identifier of the record. *)
Definition has_id (id : string) (g : GoldenSQL.t) : bool :=
  bool_decide (GoldenSQL.id g = Some id).

(** Modelled from the spec: what [GoldenSQLRepository.delete_by_id] leaves
    and the "count_deleted" it reports, one record at most being deleted. *)
Fixpoint delete_first (id : string) (gs : list GoldenSQL.t) : list GoldenSQL.t * Z :=
  match gs with
  | [] => ([], 0)
  | g :: rest =>
      if has_id id g then (rest, 1)
      else let '(rest', n) := delete_first id rest in (g :: rest', n)
  end.

(** Modelled from the spec: [GoldenSQLRepository.insert], "insert(entity) →
    entity_with_id". *)
Definition golden_sqls_insert (g : GoldenSQL.t) : M GoldenSQL.t :=
  call (RepoInsert g);;
  w ← get_world;
  let stored := assign_id g (inserted w) in
  set_golden_sqls (golden_sqls w ++ [stored]) (S (inserted w));;
  mret stored.

(** Modelled from the spec: [GoldenSQLRepository.find_by_id],
    "find_by_id(id) → entity | absent". *)
Definition golden_sqls_find_by_id (id : string) : M (option GoldenSQL.t) :=
  call (RepoFindById id);;
  w ← get_world;
  mret (List.find (has_id id) (golden_sqls w)).

(** Modelled from the spec: [GoldenSQLRepository.delete_by_id],
    "delete_by_id(id) → count_deleted". *)
Definition golden_sqls_delete_by_id (id : string) : M Z :=
  call (RepoDeleteById id);;
  w ← get_world;
  let '(rest, n) := delete_first id (golden_sqls w) in
  set_golden_sqls rest (inserted w);;
  mret n.

(** Modelled from the spec: [InstructionRepository.find_all], "find_all() →
    sequence<entity>". *)
Definition instructions_find_all : M (list Instruction.t) :=
  call RepoFindAll;;
  w ← get_world;
  mret (instructions w).

(** Modelled from the spec: the vector index (dataherald.vector_store),
    "add_records(entities, collection), add_record(text, connection_id,
    collection, metadata, ids), query(query_texts, db_connection_id,
    collection, num_results) → ranked sequence of {id, score, metadata},
    delete_record(collection, id), delete_record_by_metadata(collection,
    metadata_predicate)"; records are keyed by their identifiers, so
    an insert under a known identifier overwrites. *)
Definition vector_of_golden_sql (g : GoldenSQL.t) : VectorRecord :=
  {| vr_document := GoldenSQL.prompt_text g;
     vr_db_connection_id := GoldenSQL.db_connection_id g;
     vr_metadata := ∅ |}.

(** Modelled from the spec: [VectorStore.query], a read of the index whose
    ranking is the parameter [similarity]. *)
Definition vector_store_query (query_texts : list string)
    (db_connection_id collection : string) (num_results : Z) : M (list Match) :=
  call (VsQuery query_texts db_connection_id collection num_results);;
  w ← get_world;
  mret (similarity (vector_store w) query_texts db_connection_id collection num_results).

(** Modelled from the spec: [VectorStore.add_records], "batch-insert all
    persisted examples into the golden-example vector collection keyed by
    their assigned identifiers". *)
Definition vector_store_add_records (gs : list GoldenSQL.t) (collection : string)
  : M unit :=
  call (VsAddRecords gs collection);;
  w ← get_world;
  set_vector_store
    (foldl (λ vs g, <[(collection, default "" (GoldenSQL.id g)) := vector_of_golden_sql g]> vs)
       (vector_store w) gs).

(** Modelled from the spec: [VectorStore.add_record], one record under
    the identifier of [ids]. *)
Definition vector_store_add_record (document db_connection_id collection : string)
    (metadata : gmap string string) (id : string) : M unit :=
  call (VsAddRecord document db_connection_id collection metadata id);;
  w ← get_world;
  set_vector_store
    (<[(collection, id) :=
         {| vr_document := document; vr_db_connection_id := db_connection_id;
            vr_metadata := metadata |}]> (vector_store w)).

(** Modelled from the spec: [VectorStore.delete_record], which may find
    nothing under the identifier. *)
Definition vector_store_delete_record (collection id : string) : M unit :=
  call (VsDeleteRecord collection id);;
  w ← get_world;
  set_vector_store (delete (collection, id) (vector_store w)).

(** Modelled from the spec: the entries that
    [VectorStore.delete_record_by_metadata] deletes, "all chunks whose
    metadata matches, scoped by collection". *)
Definition deleted_by (collection : string) (predicate : gmap string string)
    (entry : (string * string) * VectorRecord) : Prop :=
  entry.1.1 = collection ∧ metadata_matches predicate entry.2 = true.

#[local] Instance deleted_by_dec collection predicate entry :
  Decision (deleted_by collection predicate entry).
Proof. unfold deleted_by. apply _. Defined.

(** Modelled from the spec: [VectorStore.delete_record_by_metadata]. *)
Definition vector_store_delete_record_by_metadata (collection : string)
    (metadata : gmap string string) : M unit :=
  call (VsDeleteRecordByMetadata collection metadata);;
  w ← get_world;
  set_vector_store
    (filter (λ entry, ¬ deleted_by collection metadata entry) (vector_store w)).

(** *** DefaultContextStore *)

(** The loop over [closest_questions]: matches whose record is gone are
    skipped. *)
Fixpoint resolve_samples (closest_questions : list Match) (samples : list Sample)
  : M (list Sample) :=
  match closest_questions with
  | [] => mret samples
  | question :: rest =>
      golden_sql ← golden_sqls_find_by_id (m_id question);
      match golden_sql with
      | Some g =>
          resolve_samples rest
            (samples ++ [{| sample_prompt_text := GoldenSQL.prompt_text g;
                            sample_sql := GoldenSQL.sql g;
                            sample_score := m_score question |}])
      | None => resolve_samples rest samples
      end
  end.

(** The loop over [all_instructions]. *)
Fixpoint select_instructions (db_connection_id : string)
    (all_instructions : list Instruction.t) (instructions : list InstructionDict)
  : list InstructionDict :=
  match all_instructions with
  | [] => instructions
  | instruction :: rest =>
      if bool_decide (Instruction.db_connection_id instruction = db_connection_id)
      then select_instructions db_connection_id rest
             (instructions ++ [{| instruction_text := Instruction.instruction instruction |}])
      else select_instructions db_connection_id rest instructions
  end.

(** [if len(xs) == 0: xs = None]. *)
Definition none_if_empty {A : Type} (xs : list A) : option (list A) :=
  if (length xs =? 0)%nat then None else Some xs.

Definition retrieve_context_for_question (prompt : Prompt.t)
    (number_of_samples : option Z)
  : M (option (list Sample) * option (list InstructionDict)) :=
  logger_info ("Getting context for " +:+ Prompt.text prompt);;
  closest_questions ←
    vector_store_query [Prompt.text prompt] (Prompt.db_connection_id prompt)
      golden_sql_collection (default 3 number_of_samples);
  samples ← resolve_samples closest_questions [];
  let samples := none_if_empty samples in
  all_instructions ← instructions_find_all;
  let instructions :=
    select_instructions (Prompt.db_connection_id prompt) all_instructions [] in
  let instructions := none_if_empty instructions in
  mret (samples, instructions).

Definition malformed_message (sql : string) : string :=
  "SQL " +:+ sql +:+ " is malformed. Please check the syntax.".

(** [datetime.now()], the [default_factory] of [created_at]: each call
    reads the clock, which has moved at the next reading. *)
Definition datetime_now : M datetime :=
  w ← get_world;
  set_now (later (now w));;
  mret (now w).

(** [Parser(sql).tables]. *)
Definition parser_tables (sql : string) : M unit :=
  if Parser_tables sql then mret tt else raise SqlMetadataError.

Definition no_attribute (name : string) : string :=
  "'GoldenSQLRequest' object has no attribute '" +:+ name +:+ "'".

(** [record.<name>] for a name outside [GoldenSQLRequest.fields]: the
    read raises [AttributeError] and so yields no value, of whatever type
    the code goes on with. *)
Definition undeclared_attribute {A : Type} (record : GoldenSQLRequest.t) (name : string)
  : M A :=
  raise (AttributeError (no_attribute name)).

(** The loop of [add_golden_sqls]. [record.db_connection_id] and
    [record.metadata] are fields of the request; [record.sql] and
    [record.prompt_text] are not. The handler of the [try] formats
    [record.sql] into its message, which is a second read. *)
Fixpoint store_golden_sqls (golden_sqls : list GoldenSQLRequest.t)
    (stored_golden_sqls : list GoldenSQL.t) : M (list GoldenSQL.t) :=
  match golden_sqls with
  | [] => mret stored_golden_sqls
  | record :: rest =>
      try_except
        (sql ← undeclared_attribute record "sql";
         parser_tables sql)
        (λ e,
           sql ← undeclared_attribute record "sql";
           raise (MalformedGoldenSQLError (malformed_message sql)));;
      prompt_text ← undeclared_attribute record "prompt_text";
      sql ← undeclared_attribute record "sql";
      created_at ← datetime_now;
      let golden_sql :=
        {| GoldenSQL.id := None;
           GoldenSQL.prompt_text := prompt_text;
           GoldenSQL.sql := sql;
           GoldenSQL.db_connection_id := GoldenSQLRequest.db_connection_id record;
           GoldenSQL.created_at := created_at;
           GoldenSQL.metadata := GoldenSQLRequest.metadata record |} in
      stored ← golden_sqls_insert golden_sql;
      store_golden_sqls rest (stored_golden_sqls ++ [stored])
  end.

Definition add_golden_sqls (golden_sqls : list GoldenSQLRequest.t)
  : M (list GoldenSQL.t) :=
  stored_golden_sqls ← store_golden_sqls golden_sqls [];
  vector_store_add_records stored_golden_sqls golden_sql_collection;;
  mret stored_golden_sqls.

Fixpoint remove_each (ids : list string) : M unit :=
  match ids with
  | [] => mret tt
  | id :: rest =>
      vector_store_delete_record golden_sql_collection id;;
      deleted ← golden_sqls_delete_by_id id;
      (if deleted =? 0
       then logger_warning ("Golden record with id " +:+ id +:+ " not found")
       else mret tt);;
      remove_each rest
  end.

Definition remove_golden_sqls (ids : list string) : M bool :=
  remove_each ids;;
  mret true.

Definition chunk_metadata (context_file : ContextFile.t) (page_content : string)
  : gmap string string :=
  <["file_name" := ContextFile.file_name context_file]>
    (<["db_connection_id" := ContextFile.db_connection_id context_file]>
       (<["text" := page_content]> ∅)).

(** [str(index)]. *)
Definition str (index : nat) : string := pretty index.

(** The loop over [enumerate(texts)], from [index] on. *)
Fixpoint add_chunks (context_file : ContextFile.t) (index : nat) (texts : list string)
  : M unit :=
  match texts with
  | [] => mret tt
  | text :: rest =>
      vector_store_add_record text (ContextFile.db_connection_id context_file)
        context_files_collection (chunk_metadata context_file text)
        (ContextFile.id context_file +:+ str index);;
      add_chunks context_file (S index) rest
  end.

Definition add_context_file (context_file : ContextFile.t) (content : string) : M bool :=
  logger_info ("Adding context file " +:+ ContextFile.file_name context_file);;
  let texts := create_documents 1000 50 content in
  logger_info ("Number of chunks: " +:+ str (length texts));;
  add_chunks context_file 0 texts;;
  mret true.

Definition delete_context_file (context_file : ContextFile.t) : M bool :=
  vector_store_delete_record_by_metadata context_files_collection
    {["file_name" := ContextFile.file_name context_file]};;
  mret true.

(** The loop of [retrieve_context_files]; [context_file['metadata']['text']]
    raises [KeyError] on a match without that key. *)
Fixpoint concat_texts (context_files : list Match) (text_content : string) : M string :=
  match context_files with
  | [] => mret text_content
  | context_file :: rest =>
      match m_metadata context_file !! "text" with
      | Some text => concat_texts rest (text_content +:+ text +:+ newline)
      | None => raise (KeyError "text")
      end
  end.

Definition retrieve_context_files (prompt : Prompt.t) (num_results : option Z) : M string :=
  context_files ←
    vector_store_query [Prompt.text prompt] (Prompt.db_connection_id prompt)
      context_files_collection (default 3 num_results);
  concat_texts context_files "".

End DefaultContextStore.

(** ** Vocabulary of the statements *)

Fixpoint all_chars (p : ascii → bool) (s : string) : bool :=
  match s with
  | EmptyString => true
  | String c rest => p c && all_chars p rest
  end.

Definition is_hex_or_space (c : ascii) : bool := Bson.is_hex c || Bson.is_space c.

(** The format named by the specification: 24 characters, each one of
    [0-9a-f]. *)
Definition lowercase_hex_24 (v : string) : bool :=
  (String.length v =? 24)%nat && all_chars Bson.is_lower_hex v.

Definition is_status_value (s : string) : Prop :=
  ∃ st : SQLGenerationStatus, SQLGenerationStatus_.value st = s.

(** The world after more calls were traced, the stores being as they were. *)
Definition append_trace (w : World) (cs : list Call) : World :=
  {| golden_sqls := golden_sqls w; instructions := instructions w;
     inserted := inserted w; vector_store := vector_store w; now := now w;
     trace := trace w ++ cs |}.

(** The stores of two worlds agree: records, instructions and vectors. *)
Definition same_stores (w w' : World) : Prop :=
  golden_sqls w' = golden_sqls w
  ∧ instructions w' = instructions w
  ∧ inserted w' = inserted w
  ∧ vector_store w' = vector_store w.

Definition sample_of (question : Match) (g : GoldenSQL.t) : Sample :=
  {| sample_prompt_text := GoldenSQL.prompt_text g;
     sample_sql := GoldenSQL.sql g;
     sample_score := m_score question |}.

(** The record a match resolves to, when the record store still has it. *)
Definition resolve (gs : list GoldenSQL.t) (question : Match) : option Sample :=
  sample_of question <$> List.find (has_id (m_id question)) gs.

Definition instruction_dict (i : Instruction.t) : InstructionDict :=
  {| instruction_text := Instruction.instruction i |}.

(** The stored instructions of a connection, by equality of the identifier. *)
Definition instructions_of (db_connection_id : string) (all : list Instruction.t)
  : list InstructionDict :=
  instruction_dict <$>
    filter (λ i, Instruction.db_connection_id i = db_connection_id) all.

(** Each text followed by a newline, as the loop of [retrieve_context_files]
    builds it. *)
Definition newline_terminated (texts : list string) : string :=
  foldr (λ text rest, text +:+ newline +:+ rest) "" texts.

(** The texts with a newline between neighbours: ["\n".join(texts)], the
    reading of "newline-separated". *)
Definition newline_separated (texts : list string) : string :=
  String.concat newline texts.

Definition not_found_message (id : string) : string :=
  "Golden record with id " +:+ id +:+ " not found".

(** The calls of one round of the loop of [remove_golden_sqls] on a record
    store that holds [gs]. *)
Definition removal_round (collection id : string) (gs : list GoldenSQL.t) : list Call :=
  [VsDeleteRecord collection id; RepoDeleteById id]
    ++ (if (delete_first id gs).2 =? 0 then [LogWarning (not_found_message id)] else []).

(** The world after one round of that loop. *)
Definition remove_one (collection id : string) (w : World) : World :=
  {| golden_sqls := (delete_first id (golden_sqls w)).1;
     instructions := instructions w;
     inserted := inserted w;
     vector_store := delete (collection, id) (vector_store w);
     now := now w;
     trace := trace w ++ removal_round collection id (golden_sqls w) |}.

Definition removed (collection : string) (ids : list string) (w : World) : World :=
  foldl (λ w id, remove_one collection id w) w ids.

(** The calls of the whole loop, round after round, from a record store
    that holds [gs]. *)
Fixpoint removal_calls (collection : string) (ids : list string) (gs : list GoldenSQL.t)
  : list Call :=
  match ids with
  | [] => []
  | id :: rest =>
      removal_round collection id gs
        ++ removal_calls collection rest (delete_first id gs).1
  end.

(** The identifier of the chunk at position [index] of a file. *)
Definition chunk_id (context_file : ContextFile.t) (index : nat) : string :=
  ContextFile.id context_file +:+ str index.

Definition chunk_record (context_file : ContextFile.t) (text : string) : VectorRecord :=
  {| vr_document := text;
     vr_db_connection_id := ContextFile.db_connection_id context_file;
     vr_metadata := chunk_metadata context_file text |}.

(** The insert made for the chunk at position [index]. *)
Definition chunk_call (collection : string) (context_file : ContextFile.t)
    (index : nat) (text : string) : Call :=
  VsAddRecord text (ContextFile.db_connection_id context_file) collection
    (chunk_metadata context_file text) (chunk_id context_file index).

(** The vector index once the chunks [texts] were inserted, the first of
    them at position [index]. *)
Fixpoint index_chunks (collection : string) (context_file : ContextFile.t)
    (index : nat) (texts : list string) (vs : gmap (string * string) VectorRecord)
  : gmap (string * string) VectorRecord :=
  match texts with
  | [] => vs
  | text :: rest =>
      index_chunks collection context_file (S index) rest
        (<[(collection, chunk_id context_file index) := chunk_record context_file text]> vs)
  end.

(** Everything [add_context_file] calls for chunks [texts]: two log lines
    and one insert per chunk. *)
Definition ingestion_calls (collection : string) (context_file : ContextFile.t)
    (texts : list string) : list Call :=
  [LogInfo ("Adding context file " +:+ ContextFile.file_name context_file);
   LogInfo ("Number of chunks: " +:+ str (length texts))]
    ++ imap (chunk_call collection context_file) texts.

Definition added_document (c : Call) : option string :=
  match c with
  | VsAddRecord document _ _ _ _ => Some document
  | _ => None
  end.

(** ** Stand-ins for the external libraries, for concrete runs *)

Module Fixture.

(** A parser that accepts the statements starting with [SELECT ]. *)
Definition Parser_tables (sql : string) : bool := String.prefix "SELECT " sql.

Definition new_id (n : nat) : string := "id" +:+ pretty n.

Definition golden_sql_collection : string := "golden_sqls".
Definition context_files_collection : string := "context_files".

(** An index without a ranking: the records of the collection and of the
    connection, in key order, at most [num_results] of them. *)
Definition similarity (vs : gmap (string * string) VectorRecord)
    (query_texts : list string) (db_connection_id collection : string)
    (num_results : Z) : list Match :=
  take (Z.to_nat num_results)
    (omap (λ entry : (string * string) * VectorRecord,
             if bool_decide (entry.1.1 = collection
                             ∧ vr_db_connection_id entry.2 = db_connection_id)
             then Some {| m_id := entry.1.2; m_score := 1%Q;
                          m_metadata := vr_metadata entry.2 |}
             else None)
       (map_to_list vs)).

(** Windows of [chunk_size] characters, each starting [chunk_overlap]
    characters before the end of the one before. *)
Fixpoint windows (fuel size step : nat) (s : string) : list string :=
  match fuel with
  | O => []
  | S fuel' =>
      if (String.length s <=? size)%nat then [s]
      else substring 0 size s
             :: windows fuel' size step (substring step (String.length s - step) s)
  end.

Definition create_documents (chunk_size chunk_overlap : Z) (content : string)
  : list string :=
  if bool_decide (content = "") then []
  else windows (String.length content) (Z.to_nat chunk_size)
         (Z.to_nat (chunk_size - chunk_overlap)) content.

Definition empty_world : World :=
  {| golden_sqls := []; instructions := []; inserted := 0;
     vector_store := ∅; now := 0; trace := [] |}.

Definition connection : string := "507f1f77bcf86cd799439011".

Definition prompt (text : string) : Prompt.t :=
  {| Prompt.id := None; Prompt.text := text;
     Prompt.db_connection_id := connection;
     Prompt.created_at := 0; Prompt.metadata := None |}.

Definition context_file : ContextFile.t :=
  {| ContextFile.id := "65a0c0ffee65a0c0ffee0001";
     ContextFile.file_name := "notes.txt";
     ContextFile.db_connection_id := connection |}.

Definition later (t : datetime) : datetime := t + 1.

Definition request (question sql_query : string) : GoldenSQLRequest.t :=
  {| GoldenSQLRequest.db_connection_id := connection;
     GoldenSQLRequest.question := Some question;
     GoldenSQLRequest.sql_query := Some sql_query;
     GoldenSQLRequest.created_at := 0;
     GoldenSQLRequest.metadata := None |}.

(** A batch whose second request is malformed. *)
Definition batch : list GoldenSQLRequest.t :=
  [request "show all users" "SELECT * FROM users";
   request "show all orders" "SELEKT * FORM orders"].

Definition golden_sql (prompt_text sql : string) : GoldenSQL.t :=
  {| GoldenSQL.id := None;
     GoldenSQL.prompt_text := prompt_text;
     GoldenSQL.sql := sql;
     GoldenSQL.db_connection_id := connection;
     GoldenSQL.created_at := 0;
     GoldenSQL.metadata := None |}.

(** The two stores once golden SQLs were put into them through the
    collaborators: one insert each, then one [add_records]. *)
Fixpoint insert_all (gs : list GoldenSQL.t) (stored : list GoldenSQL.t)
  : M (list GoldenSQL.t) :=
  match gs with
  | [] => mret stored
  | g :: rest =>
      inserted_g ← golden_sqls_insert new_id g;
      insert_all rest (stored ++ [inserted_g])
  end.

Definition holding (gs : list GoldenSQL.t) : World :=
  ((stored ← insert_all gs [];
    vector_store_add_records stored golden_sql_collection) empty_world).2.

(** A splitter that ignores the sizes it is given. *)
Definition create_documents_1000_50 (chunk_size chunk_overlap : Z) (content : string)
  : list string :=
  create_documents 1000 50 content.

(** A document of 2500 characters. *)
Definition long_content : string :=
  String.concat "" (replicate 250 "0123456789").

(** Two chunks with one file name, indexed for two connections. *)
Definition shared_name_store : gmap (string * string) VectorRecord :=
  <[(context_files_collection, "a0") :=
      {| vr_document := "first";
         vr_db_connection_id := connection;
         vr_metadata := <["file_name" := "notes.txt"]>
                          (<["db_connection_id" := connection]>
                             (<["text" := "first"]> ∅)) |}]>
    (<[(context_files_collection, "b0") :=
         {| vr_document := "second";
            vr_db_connection_id := "65a0c0ffee65a0c0ffee0002";
            vr_metadata := <["file_name" := "notes.txt"]>
                             (<["db_connection_id" := "65a0c0ffee65a0c0ffee0002"]>
                                (<["text" := "second"]> ∅)) |}]> ∅).

Definition shared_name_world : World :=
  {| golden_sqls := []; instructions := []; inserted := 0;
     vector_store := shared_name_store; now := 0; trace := [] |}.

(** The index after one short file was ingested. *)
Definition indexed_world : World :=
  (add_context_file create_documents context_files_collection context_file
     "orders hold one row per sale" empty_world).2.

End Fixture.

(** ** Vocabulary of the further statements *)

(** The vector index after [add_records] on stored golden SQLs. *)
Definition index_golden_sqls (collection : string) (gs : list GoldenSQL.t)
    (vs : gmap (string * string) VectorRecord) : gmap (string * string) VectorRecord :=
  foldl (λ vs g, <[(collection, default "" (GoldenSQL.id g)) := vector_of_golden_sql g]> vs)
    vs gs.

(** A sample stands for a match: it carries the score of the match and the
    prompt text and SQL of the record stored under the identifier of the
    match. *)
Definition sample_stands_for (gs : list GoldenSQL.t) (question : Match) (s : Sample)
  : Prop :=
  sample_score s = m_score question
  ∧ ∃ g, List.find (has_id (m_id question)) gs = Some g
         ∧ sample_prompt_text s = GoldenSQL.prompt_text g
         ∧ sample_sql s = GoldenSQL.sql g.

(** The world left by a golden SQL in an index whose two collections have
    been given one name. *)
Definition one_collection_world : World :=
  Fixture.holding [Fixture.golden_sql "show all users" "SELECT * FROM users"].

(** Every record of a collection carries a text in its metadata. *)
Definition chunks_have_text (collection : string)
    (vs : gmap (string * string) VectorRecord) : Prop :=
  map_Forall (λ (key : string * string) r,
                key.1 = collection → is_Some (vr_metadata r !! "text")) vs.

(** The matches of a query are records of the collection: each stands for a
    record kept under its identifier and carries the metadata of that
    record. *)
Definition answers_from_index (collection : string)
    (vs : gmap (string * string) VectorRecord) (matches : list Match) : Prop :=
  Forall (λ m, ∃ r, vs !! (collection, m_id m) = Some r ∧ m_metadata m = vr_metadata r)
    matches.

(** A record that none of the identifiers names. *)
Definition kept (ids : list string) (g : GoldenSQL.t) : Prop :=
  Forall (λ id, GoldenSQL.id g ≠ Some id) ids.

#[global] Instance kept_dec ids g : Decision (kept ids g).
Proof. unfold kept. apply _. Defined.

(** Three stored golden SQLs under three identifiers, all indexed. *)
Definition three_golden_sqls : World :=
  Fixture.holding
    [Fixture.golden_sql "show all users" "SELECT * FROM users";
     Fixture.golden_sql "count the orders" "SELECT COUNT(*) FROM orders";
     Fixture.golden_sql "list the products" "SELECT name FROM products"].

(** ** More of dataherald/types.py *)

Module BaseLLM.
Record t := {
  model_provider : option string;
  model_name : option string;
  model_parameters : option (list (string * string)) }.
End BaseLLM.

(** [FineTuningRequest(BaseModel)]: its [db_connection_id] is a plain [str]
    field; the class does not inherit [DBConnectionValidation] and declares
    no validator. *)
Module FineTuningRequest.

Record t := {
  db_connection_id : string;
  alias : string;
  base_llm : BaseLLM.t;
  golden_sqls : option (list string);
  metadata : option (list (string * string)) }.

Definition parse (conn alias_ : string) (llm : BaseLLM.t) (gs : option (list string))
    (md : option (list (string * string))) : Validated t :=
  validated []
    {| db_connection_id := conn; alias := alias_; base_llm := llm;
       golden_sqls := gs; metadata := md |}.

End FineTuningRequest.

(** A field that is omitted, or given with at least [limit] code points. *)
Definition long_enough (limit : nat) (v : option string) : Prop :=
  match v with
  | Some s => (limit ≤ len s)%nat
  | None => True
  end.
(** * Properties *)

(** ** Identifier validation *)

Example objectid_lower :
  DBConnectionValidation.object_id_validation "507f1f77bcf86cd799439011"
  = inr "507f1f77bcf86cd799439011".
Proof. reflexivity. Qed.

Example objectid_short :
  DBConnectionValidation.object_id_validation "507f1f77"
  = inl "Must be a valid ObjectId".
Proof. reflexivity. Qed.

Lemma hex_not_space c : Bson.is_hex c = true → Bson.is_space c = false.
Proof.
  destruct c as [[] [] [] [] [] [] [] []]; vm_compute; congruence.
Qed.

Lemma hex_value_is_hex c : Bson.is_hex c = true → ∃ n, Bson.hex_value c = Some n.
Proof.
  unfold Bson.is_hex. destruct (Bson.hex_value c) as [n|]; [eauto | discriminate].
Qed.

Lemma fromhex_pairs n : ∀ s,
  String.length s = (2 * n)%nat → all_chars Bson.is_hex s = true →
  ∃ bs, Bson.fromhex s = Some bs.
Proof.
  induction n as [|n IH]; intros s Hlen Hhex.
  - destruct s; [exists []; reflexivity | discriminate].
  - destruct s as [|c [|d s]]; simpl in Hlen; try lia.
    simpl in Hhex.
    apply andb_prop in Hhex as [Hc Hhex]. apply andb_prop in Hhex as [Hd Hhex].
    destruct (IH s) as [bs Hbs]; [lia | assumption |].
    destruct (hex_value_is_hex c Hc) as [top Htop].
    destruct (hex_value_is_hex d Hd) as [bot Hbot].
    exists ((top * 16 + bot)%N :: bs).
    cbn [Bson.fromhex]. rewrite (hex_not_space c Hc), Htop, Hbot, Hbs. reflexivity.
Qed.

Lemma fromhex_chars : ∀ s bs,
  Bson.fromhex s = Some bs → all_chars is_hex_or_space s = true.
Proof.
  fix IH 1. intros s bs.
  destruct s as [|c rest]; [reflexivity|].
  cbn [Bson.fromhex all_chars]. unfold is_hex_or_space at 1.
  destruct (Bson.is_space c) eqn:Hsp.
  - intros H. rewrite orb_true_r. simpl. exact (IH rest bs H).
  - unfold Bson.is_hex at 1.
    destruct (Bson.hex_value c) as [top|]; [|discriminate].
    destruct rest as [|d rest']; [discriminate|].
    destruct (Bson.hex_value d) as [bot|] eqn:Hd; [|discriminate].
    destruct (Bson.fromhex rest') as [bs'|] eqn:Hrest; [|discriminate].
    intros _. cbn [all_chars]. unfold is_hex_or_space at 1, Bson.is_hex at 1.
    rewrite Hd. simpl. exact (IH rest' bs' Hrest).
Qed.

Lemma validation_accepts v :
  DBConnectionValidation.object_id_validation v = inr v
  ↔ String.length v = 24%nat ∧ ∃ bs, Bson.fromhex v = Some bs.
Proof.
  unfold DBConnectionValidation.object_id_validation, Bson.ObjectId.
  destruct (String.length v =? 24)%nat eqn:Hlen.
  - apply Nat.eqb_eq in Hlen.
    destruct (Bson.fromhex v) as [bs|]; split.
    + eauto.
    + reflexivity.
    + discriminate.
    + intros [_ [bs Hbs]]. discriminate.
  - apply Nat.eqb_neq in Hlen. split; [discriminate | intros [H _]; contradiction].
Qed.

Lemma validation_total v :
  DBConnectionValidation.object_id_validation v = inr v
  ∨ DBConnectionValidation.object_id_validation v = inl "Must be a valid ObjectId".
Proof.
  unfold DBConnectionValidation.object_id_validation.
  destruct (Bson.ObjectId v); auto.
Qed.

Lemma validated_valid {A} errs (a r : A) : validated errs a = Valid r → errs = [] ∧ r = a.
Proof. destruct errs; simpl; [intros [= <-]; auto | discriminate]. Qed.

Lemma field_errors_nil v :
  DBConnectionValidation.field_errors v = [] →
  DBConnectionValidation.object_id_validation v = inr v.
Proof.
  unfold DBConnectionValidation.field_errors.
  destruct (validation_total v) as [-> | ->]; [reflexivity | discriminate].
Qed.

(** C6, as amended. The validator of [db_connection_id] returns its
    argument when [ObjectId] accepts it and fails with the [ValueError]
    behind pydantic's [ValidationError] otherwise: every string whose length
    is not 24 is rejected, every string of 24 hexadecimal digits, in either
    case, is accepted, and an accepted string has 24 characters, each a
    hexadecimal digit or ASCII whitespace. The models that inherit the
    validator ([InstructionRequest], [GoldenSQLRequest], [ScannerRequest])
    validate only with an accepted [db_connection_id]. *)
Theorem object_id_validation_format (v : string) :
  (String.length v ≠ 24%nat →
     DBConnectionValidation.object_id_validation v = inl "Must be a valid ObjectId")
  ∧ (String.length v = 24%nat → all_chars Bson.is_hex v = true →
     DBConnectionValidation.object_id_validation v = inr v)
  ∧ (∀ v', DBConnectionValidation.object_id_validation v = inr v' →
     v' = v ∧ String.length v = 24%nat ∧ all_chars is_hex_or_space v = true)
  ∧ (∀ r, DBConnectionValidation.parse v = Valid r →
     DBConnectionValidation.object_id_validation v = inr v)
  ∧ (∀ instr md r, InstructionRequest.parse v instr md = Valid r →
     DBConnectionValidation.object_id_validation v = inr v)
  ∧ (∀ q s now md r, GoldenSQLRequest.parse v q s now md = Valid r →
     DBConnectionValidation.object_id_validation v = inr v)
  ∧ (∀ tables md r, ScannerRequest.parse v tables md = Valid r →
     DBConnectionValidation.object_id_validation v = inr v).
Proof.
  repeat split.
  - intros Hlen. destruct (validation_total v) as [H|H]; [|exact H].
    apply validation_accepts in H as [H _]. contradiction.
  - intros Hlen Hhex. apply validation_accepts. split; [exact Hlen|].
    apply (fromhex_pairs 12); [rewrite Hlen; reflexivity | exact Hhex].
  - revert H. unfold DBConnectionValidation.object_id_validation.
    destruct (Bson.ObjectId v); congruence.
  - assert (Hv : DBConnectionValidation.object_id_validation v = inr v).
    { revert H. unfold DBConnectionValidation.object_id_validation.
      destruct (Bson.ObjectId v); congruence. }
    apply validation_accepts in Hv. tauto.
  - assert (Hv : DBConnectionValidation.object_id_validation v = inr v).
    { revert H. unfold DBConnectionValidation.object_id_validation.
      destruct (Bson.ObjectId v); congruence. }
    apply validation_accepts in Hv as [_ [bs Hbs]]. exact (fromhex_chars v bs Hbs).
  - intros r. unfold DBConnectionValidation.parse.
    destruct (DBConnectionValidation.field_errors v) eqn:He; [|discriminate].
    intros _. exact (field_errors_nil v He).
  - intros instr md r H. apply validated_valid in H as [H _].
    apply app_eq_nil in H as [H _]. exact (field_errors_nil v H).
  - intros q s now0 md r H. apply validated_valid in H as [H _].
    apply app_eq_nil in H as [H _]. exact (field_errors_nil v H).
  - intros tables md r H. apply validated_valid in H as [H _].
    exact (field_errors_nil v H).
Qed.

(** An upper-case identifier passes, through the theorem above. *)
Lemma object_id_validation_format_witness :
  DBConnectionValidation.object_id_validation "507F1F77BCF86CD799439011"
  = inr "507F1F77BCF86CD799439011".
Proof.
  apply (proj1 (proj2 (object_id_validation_format "507F1F77BCF86CD799439011")));
    reflexivity.
Defined.

(** C6 as stated fails: an identifier with upper-case digits is not a
    24-character lowercase hexadecimal string, and validation accepts it. *)
Lemma uppercase_object_id_accepted :
  ¬ (∀ v : string,
       lowercase_hex_24 v = false →
       DBConnectionValidation.object_id_validation v = inl "Must be a valid ObjectId").
Proof.
  intros H. specialize (H "507F1F77BCF86CD799439011" eq_refl). discriminate H.
Qed.

(** ** SQLGeneration *)

(** C2, as amended. A [SQLGeneration] created without a status has status
    ["INVALID"], the value of a member of [SQLGenerationStatus] other than
    [NONE]; a status given by the caller is kept as it is, whatever the
    string. *)
Theorem sql_generation_default_status (now : datetime) (prompt_id : string) :
  SQLGeneration.status (SQLGeneration.create now prompt_id SQLGeneration.no_kwargs)
    = SQLGenerationStatus_.value INVALID
  ∧ is_status_value
      (SQLGeneration.status (SQLGeneration.create now prompt_id SQLGeneration.no_kwargs))
  ∧ (∀ s, SQLGeneration.status
            (SQLGeneration.create now prompt_id (SQLGeneration.with_status s)) = s).
Proof.
  split; [reflexivity|]. split; [|reflexivity].
  exists INVALID. reflexivity.
Qed.

(** C2 as stated fails: a fresh [SQLGeneration] does not start in [NONE],
    and a status outside the three values is accepted. *)
Lemma sql_generation_starts_invalid :
  SQLGeneration.status (SQLGeneration.create 0 "p1" SQLGeneration.no_kwargs)
    ≠ SQLGenerationStatus_.value NONE
  ∧ ¬ is_status_value
        (SQLGeneration.status
           (SQLGeneration.create 0 "p1" (SQLGeneration.with_status "RUNNING"))).
Proof.
  split; [discriminate|].
  intros [[] H]; discriminate H.
Qed.

(** ** Running computations *)

Lemma bind_returns {A B : Type} (m : M A) (f : A → M B) w a w' :
  m w = (Returns a, w') → (m ≫= f) w = f a w'.
Proof. intros H. unfold mbind, M_bind. rewrite H. reflexivity. Qed.

Lemma bind_raises {A B : Type} (m : M A) (f : A → M B) w e w' :
  m w = (Raises e, w') → (m ≫= f) w = (Raises e, w').
Proof. intros H. unfold mbind, M_bind. rewrite H. reflexivity. Qed.

Lemma append_trace_nil w : append_trace w [] = w.
Proof. destruct w. unfold append_trace. simpl. rewrite app_nil_r. reflexivity. Qed.

Lemma append_trace_app w cs cs' :
  append_trace (append_trace w cs) cs' = append_trace w (cs ++ cs').
Proof. unfold append_trace. simpl. rewrite app_assoc. reflexivity. Qed.

Lemma same_stores_append_trace w cs : same_stores w (append_trace w cs).
Proof. repeat split. Qed.

Lemma call_run c w : call c w = (Returns tt, append_trace w [c]).
Proof. reflexivity. Qed.

Lemma get_world_run w : get_world w = (Returns w, w).
Proof. reflexivity. Qed.

Lemma find_by_id_run id w :
  golden_sqls_find_by_id id w
  = (Returns (List.find (has_id id) (golden_sqls w)), append_trace w [RepoFindById id]).
Proof. reflexivity. Qed.

Lemma find_all_run w :
  instructions_find_all w = (Returns (instructions w), append_trace w [RepoFindAll]).
Proof. reflexivity. Qed.

(** ** retrieve_context_for_question *)

Lemma resolve_samples_run closest : ∀ samples w,
  resolve_samples closest samples w
  = (Returns (samples ++ omap (resolve (golden_sqls w)) closest),
     append_trace w ((λ q, RepoFindById (m_id q)) <$> closest)).
Proof.
  induction closest as [|question rest IH]; intros samples w.
  - simpl. rewrite app_nil_r, append_trace_nil. reflexivity.
  - cbn [resolve_samples].
    rewrite (bind_returns _ _ _ _ _ (find_by_id_run (m_id question) w)).
    cbn [omap list_omap fmap list_fmap]. unfold resolve at 1.
    destruct (List.find (has_id (m_id question)) (golden_sqls w)) as [g|];
      rewrite IH, append_trace_app; simpl.
    + rewrite <- app_assoc. reflexivity.
    + reflexivity.
Qed.

Lemma select_instructions_spec conn all : ∀ acc,
  select_instructions conn all acc = acc ++ instructions_of conn all.
Proof.
  unfold instructions_of.
  induction all as [|i rest IH]; intros acc.
  - simpl. rewrite app_nil_r. reflexivity.
  - cbn [select_instructions]. rewrite filter_cons.
    destruct (decide (Instruction.db_connection_id i = conn)) as [Heq|Hne].
    + rewrite bool_decide_eq_true_2 by exact Heq.
      rewrite IH, <- app_assoc. reflexivity.
    + rewrite bool_decide_eq_false_2 by exact Hne. apply IH.
Qed.

Lemma none_if_empty_spec {A : Type} (xs : list A) :
  none_if_empty xs = match xs with [] => None | _ => Some xs end.
Proof. destruct xs; reflexivity. Qed.

Section Retrieval.

Variable similarity :
  gmap (string * string) VectorRecord → list string → string → string → Z → list Match.
Variable golden_sql_collection : string.

Local Abbreviation closest_questions prompt k w :=
  (similarity (vector_store w) [Prompt.text prompt] (Prompt.db_connection_id prompt)
     golden_sql_collection (default 3 k)).

Local Abbreviation retrieval_calls prompt k w :=
  ([LogInfo ("Getting context for " +:+ Prompt.text prompt);
    VsQuery [Prompt.text prompt] (Prompt.db_connection_id prompt)
      golden_sql_collection (default 3 k)]
     ++ ((λ q, RepoFindById (m_id q)) <$> closest_questions prompt k w)
     ++ [RepoFindAll]).

Lemma vector_store_query_run query_texts conn collection n w :
  vector_store_query similarity query_texts conn collection n w
  = (Returns (similarity (vector_store w) query_texts conn collection n),
     append_trace w [VsQuery query_texts conn collection n]).
Proof. reflexivity. Qed.

Lemma retrieve_context_for_question_run prompt k w :
  retrieve_context_for_question similarity golden_sql_collection prompt k w
  = (Returns
       (none_if_empty (omap (resolve (golden_sqls w)) (closest_questions prompt k w)),
        none_if_empty (instructions_of (Prompt.db_connection_id prompt) (instructions w))),
     append_trace w (retrieval_calls prompt k w)).
Proof.
  unfold retrieve_context_for_question, logger_info.
  rewrite (bind_returns _ _ _ _ _ (call_run _ w)).
  rewrite (bind_returns _ _ _ _ _ (vector_store_query_run _ _ _ _ _)).
  rewrite (bind_returns _ _ _ _ _ (resolve_samples_run _ _ _)).
  rewrite (bind_returns _ _ _ _ _ (find_all_run _)).
  rewrite select_instructions_spec.
  cbn [mret M_ret]. rewrite !append_trace_app. reflexivity.
Qed.

(** C3. The samples are [None], never an empty list, exactly when no
    match of the similarity query resolves to a stored golden SQL; the
    instructions are [None], never an empty list, exactly when no stored
    instruction has the connection id of the prompt, and otherwise they
    are the stored instructions with that very connection id, in stored
    order. *)
Theorem retrieve_context_for_question_none prompt k w :
  ∃ samples instructions_,
    (retrieve_context_for_question similarity golden_sql_collection prompt k w).1
      = Returns (samples, instructions_)
    ∧ samples ≠ Some []
    ∧ (samples = None ↔
       ∀ q, q ∈ closest_questions prompt k w →
            List.find (has_id (m_id q)) (golden_sqls w) = None)
    ∧ instructions_ ≠ Some []
    ∧ (instructions_ = None ↔
       ∀ i, i ∈ instructions w →
            Instruction.db_connection_id i ≠ Prompt.db_connection_id prompt)
    ∧ (∀ l, instructions_ = Some l →
            l = instruction_dict <$>
                  filter (λ i, Instruction.db_connection_id i
                               = Prompt.db_connection_id prompt) (instructions w)).
Proof.
  rewrite retrieve_context_for_question_run. cbn [fst].
  eexists _, _. split; [reflexivity|].
  rewrite !none_if_empty_spec.
  split; [destruct (omap _ _); congruence|].
  split.
  { split.
    - intros Hnone q Hq.
      destruct (List.find (has_id (m_id q)) (golden_sqls w)) as [g|] eqn:Hfind;
        [|reflexivity].
      assert (Hin : sample_of q g ∈ omap (resolve (golden_sqls w))
                      (closest_questions prompt k w)).
      { apply list_elem_of_omap. exists q. split; [exact Hq|].
        unfold resolve. rewrite Hfind. reflexivity. }
      destruct (omap _ _); [inversion Hin | discriminate].
    - intros Hall.
      destruct (omap _ _) as [|s rest] eqn:Hres; [reflexivity|].
      assert (Hin : s ∈ omap (resolve (golden_sqls w)) (closest_questions prompt k w))
        by (rewrite Hres; left).
      apply list_elem_of_omap in Hin as (q & Hq & Hs).
      unfold resolve in Hs. rewrite (Hall q Hq) in Hs. discriminate. }
  split; [destruct (instructions_of _ _); congruence|].
  split.
  { unfold instructions_of. split.
    - intros Hnone i Hi Heq.
      assert (Hin : instruction_dict i ∈ instruction_dict <$>
                filter (λ i, Instruction.db_connection_id i
                             = Prompt.db_connection_id prompt) (instructions w)).
      { apply list_elem_of_fmap. exists i. split; [reflexivity|].
        apply list_elem_of_filter. auto. }
      destruct (instruction_dict <$> _); [inversion Hin | discriminate].
    - intros Hall.
      destruct (instruction_dict <$> _) as [|d rest] eqn:Hres; [reflexivity|].
      assert (Hin : d ∈ instruction_dict <$>
                filter (λ i, Instruction.db_connection_id i
                             = Prompt.db_connection_id prompt) (instructions w))
        by (rewrite Hres; left).
      apply list_elem_of_fmap in Hin as (i & _ & Hi).
      apply list_elem_of_filter in Hi as [Heq Hi].
      destruct (Hall i Hi Heq). }
  intros l. unfold instructions_of.
  destruct (instruction_dict <$> _); congruence.
Qed.

(** C8. [retrieve_context_for_question] leaves the record store and the
    vector index as they were: it returns, and the calls it makes are the
    log line, one similarity query, one [find_by_id] per match and one
    [find_all], none of which inserts, deletes or updates. *)
Theorem retrieve_context_for_question_read_only prompt k w :
  ∃ result calls,
    retrieve_context_for_question similarity golden_sql_collection prompt k w
      = (Returns result, append_trace w calls)
    ∧ same_stores w (append_trace w calls)
    ∧ Forall (λ c, is_read c = true ∨ is_log c = true) calls.
Proof.
  rewrite retrieve_context_for_question_run.
  eexists _, _. split; [reflexivity|].
  split; [apply same_stores_append_trace|].
  apply Forall_app. split.
  - constructor; [right; reflexivity|].
    constructor; [left; reflexivity|]. constructor.
  - apply Forall_app. split.
    + apply Forall_fmap, Forall_true. intros q. left. reflexivity.
    + constructor; [left; reflexivity | constructor].
Qed.

End Retrieval.

(** ** retrieve_context_files *)

Lemma string_app_cons (x : ascii) (a b : string) :
  String x a +:+ b = String x (a +:+ b).
Proof. reflexivity. Qed.

Lemma string_app_assoc (a b c : string) : (a +:+ b) +:+ c = a +:+ b +:+ c.
Proof.
  induction a as [|x a IH]; [reflexivity|].
  rewrite !string_app_cons, IH. reflexivity.
Qed.

Lemma string_app_nil_r (a : string) : a +:+ "" = a.
Proof.
  induction a as [|x a IH]; [reflexivity|].
  rewrite string_app_cons, IH. reflexivity.
Qed.

Lemma newline_terminated_separated texts :
  texts ≠ [] → newline_terminated texts = newline_separated texts +:+ newline.
Proof.
  induction texts as [|text rest IH]; [congruence|]. intros _.
  destruct rest as [|text' rest].
  - simpl. reflexivity.
  - change (newline_terminated (text :: text' :: rest))
      with (text +:+ newline +:+ newline_terminated (text' :: rest)).
    change (newline_separated (text :: text' :: rest))
      with (text +:+ newline +:+ newline_separated (text' :: rest)).
    rewrite IH by congruence. rewrite !string_app_assoc. reflexivity.
Qed.

Lemma concat_texts_run context_files : ∀ texts text_content w,
  Forall2 (λ m text, m_metadata m !! "text" = Some text) context_files texts →
  concat_texts context_files text_content w
  = (Returns (text_content +:+ newline_terminated texts), w).
Proof.
  induction context_files as [|m rest IH]; intros texts text_content w Htexts.
  - inversion Htexts; subst. simpl. rewrite string_app_nil_r. reflexivity.
  - inversion Htexts as [|? text ? texts' Hm Hrest]; subst.
    cbn [concat_texts]. rewrite Hm. rewrite (IH texts' _ w Hrest).
    change (newline_terminated (text :: texts'))
      with (text +:+ newline +:+ newline_terminated texts').
    rewrite !string_app_assoc. reflexivity.
Qed.

Section ContextFiles.

Variable similarity :
  gmap (string * string) VectorRecord → list string → string → string → Z → list Match.
Variable context_files_collection : string.

(** C4, as amended. [retrieve_context_files] makes one similarity query
    and returns the text metadata of the matches in rank order, each one
    followed by a newline: the empty string without matches, and the
    newline-separated texts plus one closing newline otherwise. *)
Theorem retrieve_context_files_newline_terminated prompt k w texts :
  Forall2 (λ m text, m_metadata m !! "text" = Some text)
    (similarity (vector_store w) [Prompt.text prompt] (Prompt.db_connection_id prompt)
       context_files_collection (default 3 k))
    texts →
  retrieve_context_files similarity context_files_collection prompt k w
    = (Returns (newline_terminated texts),
       append_trace w [VsQuery [Prompt.text prompt] (Prompt.db_connection_id prompt)
                         context_files_collection (default 3 k)])
  ∧ (texts = [] → newline_terminated texts = "")
  ∧ (texts ≠ [] → newline_terminated texts = newline_separated texts +:+ newline).
Proof.
  intros Htexts. split; [|split].
  - unfold retrieve_context_files.
    rewrite (bind_returns _ _ _ _ _ (vector_store_query_run similarity _ _ _ _ w)).
    rewrite (concat_texts_run _ texts); [reflexivity | exact Htexts].
  - intros ->. reflexivity.
  - apply newline_terminated_separated.
Qed.

End ContextFiles.

(** The theorem above on the index that holds one chunk. *)
Lemma retrieve_context_files_newline_terminated_witness :
  Forall2 (λ m text, m_metadata m !! "text" = Some text)
    (Fixture.similarity (vector_store Fixture.indexed_world)
       [Prompt.text (Fixture.prompt "what is in orders?")]
       (Prompt.db_connection_id (Fixture.prompt "what is in orders?"))
       Fixture.context_files_collection (default 3 None))
    ["orders hold one row per sale"]
  ∧ (retrieve_context_files Fixture.similarity Fixture.context_files_collection
       (Fixture.prompt "what is in orders?") None Fixture.indexed_world).1
    = Returns (newline_terminated ["orders hold one row per sale"]).
Proof.
  assert (H : Forall2 (λ m text, m_metadata m !! "text" = Some text)
    (Fixture.similarity (vector_store Fixture.indexed_world)
       [Prompt.text (Fixture.prompt "what is in orders?")]
       (Prompt.db_connection_id (Fixture.prompt "what is in orders?"))
       Fixture.context_files_collection (default 3 None))
    ["orders hold one row per sale"]).
  { vm_compute. repeat constructor. }
  split; [exact H|].
  rewrite (proj1 (retrieve_context_files_newline_terminated Fixture.similarity
                    Fixture.context_files_collection
                    (Fixture.prompt "what is in orders?") None
                    Fixture.indexed_world _ H)).
  reflexivity.
Defined.

(** C4 as stated fails: with one match, whose text is the only chunk of the
    file, the answer is not the newline-separated texts (the text alone):
    the text comes back with a newline after it. *)
Lemma retrieve_context_files_not_separated :
  Forall2 (λ m text, m_metadata m !! "text" = Some text)
    (Fixture.similarity (vector_store Fixture.indexed_world)
       ["what is in orders?"] Fixture.connection Fixture.context_files_collection 3)
    ["orders hold one row per sale"]
  ∧ (retrieve_context_files Fixture.similarity Fixture.context_files_collection
       (Fixture.prompt "what is in orders?") None Fixture.indexed_world).1
    ≠ Returns (newline_separated ["orders hold one row per sale"])
  ∧ (retrieve_context_files Fixture.similarity Fixture.context_files_collection
       (Fixture.prompt "what is in orders?") None Fixture.indexed_world).1
    = Returns ("orders hold one row per sale" +:+ newline).
Proof.
  split; [vm_compute; repeat constructor|].
  split; [vm_compute; discriminate | vm_compute; reflexivity].
Qed.

(** ** add_golden_sqls *)

Example sql_is_not_a_field :
  ("sql" ∉ GoldenSQLRequest.fields) ∧ ("prompt_text" ∉ GoldenSQLRequest.fields)
  ∧ ("sql_query" ∈ GoldenSQLRequest.fields) ∧ ("question" ∈ GoldenSQLRequest.fields).
Proof.
  repeat split;
    apply (bool_decide_unpack _); vm_compute; exact I.
Qed.

Section AddGoldenSQLs.

Variable Parser_tables : string → bool.
Variable later : datetime → datetime.
Variable new_id : nat → string.
Variable golden_sql_collection : string.

Lemma undeclared_attribute_run {A : Type} record name w :
  @undeclared_attribute A record name w = (Raises (AttributeError (no_attribute name)), w).
Proof. reflexivity. Qed.

(** The [try] of the loop on any request: the read of [record.sql] raises,
    the handler takes over, and its own read of [record.sql] raises the
    exception that leaves the function. *)
Lemma parse_step_run record w :
  try_except
    (sql ← undeclared_attribute record "sql"; parser_tables Parser_tables sql)
    (λ e, sql ← undeclared_attribute record "sql";
          raise (MalformedGoldenSQLError (malformed_message sql))) w
  = (Raises (AttributeError (no_attribute "sql")), w).
Proof.
  unfold try_except.
  rewrite (bind_raises _ _ _ _ _ (undeclared_attribute_run record "sql" w)).
  apply bind_raises. apply undeclared_attribute_run.
Qed.

Lemma store_golden_sqls_nonempty record rest stored w :
  store_golden_sqls Parser_tables later new_id (record :: rest) stored w
  = (Raises (AttributeError (no_attribute "sql")), w).
Proof.
  cbn [store_golden_sqls]. apply bind_raises. apply parse_step_run.
Qed.

Lemma add_golden_sqls_nonempty record rest w :
  add_golden_sqls Parser_tables later new_id golden_sql_collection (record :: rest) w
  = (Raises (AttributeError (no_attribute "sql")), w).
Proof.
  unfold add_golden_sqls. apply bind_raises. apply store_golden_sqls_nonempty.
Qed.

(** C1, a defect of the code. On every batch that is not empty, so on
    every batch with a malformed entry, [add_golden_sqls] raises
    [AttributeError] for [record.sql] at the first request, whatever its SQL
    and whatever the parser would say: it does not raise
    [MalformedGoldenSQLError]. Nothing was written by then: the world is
    the one the call found, without a call on the record store or on the
    vector index. *)
Theorem add_golden_sqls_attribute_error record rest w :
  add_golden_sqls Parser_tables later new_id golden_sql_collection (record :: rest) w
    = (Raises (AttributeError "'GoldenSQLRequest' object has no attribute 'sql'"), w)
  ∧ (∀ msg,
       (add_golden_sqls Parser_tables later new_id golden_sql_collection
          (record :: rest) w).1
       ≠ Raises (MalformedGoldenSQLError msg))
  ∧ same_stores w
      (add_golden_sqls Parser_tables later new_id golden_sql_collection
         (record :: rest) w).2
  ∧ trace (add_golden_sqls Parser_tables later new_id golden_sql_collection
             (record :: rest) w).2
    = trace w.
Proof.
  rewrite add_golden_sqls_nonempty. cbn [fst snd].
  split; [reflexivity|]. split; [discriminate|]. split; [repeat split | reflexivity].
Qed.

End AddGoldenSQLs.

(** The malformed request alone, and behind a well-formed one: the same
    [AttributeError], and empty stores stay empty. *)
Example add_golden_sqls_on_malformed :
  add_golden_sqls Fixture.Parser_tables Fixture.later Fixture.new_id
    Fixture.golden_sql_collection
    [Fixture.request "show all orders" "SELEKT * FORM orders"] Fixture.empty_world
  = (Raises (AttributeError "'GoldenSQLRequest' object has no attribute 'sql'"),
     Fixture.empty_world)
  ∧ add_golden_sqls Fixture.Parser_tables Fixture.later Fixture.new_id
      Fixture.golden_sql_collection Fixture.batch Fixture.empty_world
    = (Raises (AttributeError "'GoldenSQLRequest' object has no attribute 'sql'"),
       Fixture.empty_world).
Proof. split; reflexivity. Qed.

(** A golden SQL that both stores hold is found by a query. *)
Example golden_sql_stored_and_retrieved :
  (retrieve_context_for_question Fixture.similarity Fixture.golden_sql_collection
     (Fixture.prompt "list every user") None
     (Fixture.holding [Fixture.golden_sql "show all users" "SELECT * FROM users"])).1
  = Returns (Some [{| sample_prompt_text := "show all users";
                      sample_sql := "SELECT * FROM users";
                      sample_score := 1%Q |}], None).
Proof. vm_compute. reflexivity. Qed.

(** ** remove_golden_sqls *)

Lemma delete_first_absent id gs :
  List.find (has_id id) gs = None → delete_first id gs = (gs, 0).
Proof.
  induction gs as [|g rest IH]; [reflexivity|].
  cbn [List.find delete_first]. destruct (has_id id g); [discriminate|].
  intros H. rewrite (IH H). reflexivity.
Qed.

Lemma delete_first_keeps_absent id id' gs :
  List.find (has_id id) gs = None →
  List.find (has_id id) (delete_first id' gs).1 = None.
Proof.
  induction gs as [|g rest IH]; [reflexivity|].
  cbn [List.find delete_first]. destruct (has_id id g) eqn:Hg; [discriminate|].
  intros H. destruct (has_id id' g); [exact H|].
  destruct (delete_first id' rest) as [rest' n] eqn:Hrest.
  cbn [fst List.find]. rewrite Hg. apply IH. exact H.
Qed.

Lemma removed_cons collection id rest w :
  removed collection (id :: rest) w = removed collection rest (remove_one collection id w).
Proof. reflexivity. Qed.

Section RemoveGoldenSQLs.

Variable golden_sql_collection : string.

Lemma vector_store_delete_record_run id w :
  vector_store_delete_record golden_sql_collection id w
  = (Returns tt,
     {| golden_sqls := golden_sqls w; instructions := instructions w;
        inserted := inserted w;
        vector_store := delete (golden_sql_collection, id) (vector_store w);
        now := now w;
        trace := trace w ++ [VsDeleteRecord golden_sql_collection id] |}).
Proof. reflexivity. Qed.

Lemma golden_sqls_delete_by_id_run id w :
  golden_sqls_delete_by_id id w
  = (Returns (delete_first id (golden_sqls w)).2,
     {| golden_sqls := (delete_first id (golden_sqls w)).1;
        instructions := instructions w; inserted := inserted w;
        vector_store := vector_store w; now := now w;
        trace := trace w ++ [RepoDeleteById id] |}).
Proof.
  unfold golden_sqls_delete_by_id.
  rewrite (bind_returns _ _ _ _ _ (call_run _ w)).
  rewrite (bind_returns _ _ _ _ _ (get_world_run _)).
  cbn [golden_sqls append_trace].
  destruct (delete_first id (golden_sqls w)) as [rest n]. reflexivity.
Qed.

Lemma remove_each_run ids : ∀ w,
  remove_each golden_sql_collection ids w
  = (Returns tt, removed golden_sql_collection ids w).
Proof.
  induction ids as [|id rest IH]; intros w; [reflexivity|].
  cbn [remove_each].
  rewrite (bind_returns _ _ _ _ _ (vector_store_delete_record_run id w)).
  rewrite (bind_returns _ _ _ _ _ (golden_sqls_delete_by_id_run id _)).
  cbn [golden_sqls]. rewrite removed_cons.
  assert (Hstep : ∀ k : M unit,
    ((if (delete_first id (golden_sqls w)).2 =? 0
      then logger_warning ("Golden record with id " +:+ id +:+ " not found")
      else mret tt) ≫= λ _, k)
      {| golden_sqls := (delete_first id (golden_sqls w)).1;
         instructions := instructions w; inserted := inserted w;
         vector_store := delete (golden_sql_collection, id) (vector_store w);
         now := now w;
         trace := (trace w ++ [VsDeleteRecord golden_sql_collection id])
                    ++ [RepoDeleteById id] |}
    = k (remove_one golden_sql_collection id w)).
  { intros k. unfold remove_one, removal_round.
    destruct ((delete_first id (golden_sqls w)).2 =? 0).
    - unfold logger_warning. rewrite (bind_returns _ _ _ _ _ (call_run _ _)).
      unfold append_trace. cbn [golden_sqls instructions inserted vector_store now trace].
      rewrite <- !app_assoc. reflexivity.
    - cbn [mbind M_bind mret M_ret]. rewrite <- !app_assoc. reflexivity. }
  rewrite Hstep. apply IH.
Qed.

Lemma removed_trace ids : ∀ w,
  trace (removed golden_sql_collection ids w)
  = trace w ++ removal_calls golden_sql_collection ids (golden_sqls w).
Proof.
  induction ids as [|id rest IH]; intros w.
  - simpl. rewrite app_nil_r. reflexivity.
  - rewrite removed_cons.
    rewrite IH. cbn [removal_calls remove_one trace golden_sqls].
    rewrite <- app_assoc. reflexivity.
Qed.

Lemma removal_round_warning id gs :
  LogWarning (not_found_message id) ∈ removal_round golden_sql_collection id gs
  ↔ (delete_first id gs).2 = 0.
Proof.
  unfold removal_round. destruct ((delete_first id gs).2 =? 0) eqn:Hn.
  - apply Z.eqb_eq in Hn. split; [auto|]. intros _. set_solver.
  - apply Z.eqb_neq in Hn. split; [|contradiction].
    rewrite app_nil_r. intros Hin.
    apply elem_of_cons in Hin as [Hin|Hin]; [discriminate|].
    apply elem_of_cons in Hin as [Hin|Hin]; [discriminate | inversion Hin].
Qed.

Lemma removal_calls_store_calls ids : ∀ gs,
  filter (λ c, is_log c = false) (removal_calls golden_sql_collection ids gs)
  = ids ≫= λ id, [VsDeleteRecord golden_sql_collection id; RepoDeleteById id].
Proof.
  induction ids as [|id rest IH]; intros gs; [reflexivity|].
  cbn [removal_calls mbind list_bind]. rewrite filter_app, IH.
  f_equal. unfold removal_round.
  destruct ((delete_first id gs).2 =? 0); reflexivity.
Qed.

Lemma removal_calls_logs ids : ∀ gs c,
  c ∈ removal_calls golden_sql_collection ids gs → is_log c = true →
  ∃ id, id ∈ ids ∧ c = LogWarning (not_found_message id).
Proof.
  induction ids as [|id rest IH]; intros gs c Hin Hlog; [inversion Hin|].
  cbn [removal_calls] in Hin. apply elem_of_app in Hin as [Hin|Hin].
  - exists id. split; [left|]. unfold removal_round in Hin.
    apply elem_of_cons in Hin as [->|Hin]; [discriminate|].
    apply elem_of_cons in Hin as [->|Hin]; [discriminate|].
    destruct ((delete_first id gs).2 =? 0); [|inversion Hin].
    apply list_elem_of_singleton in Hin. exact Hin.
  - destruct (IH _ c Hin Hlog) as (id' & Hid' & ->).
    exists id'. split; [right; exact Hid' | reflexivity].
Qed.

Lemma removal_calls_warns ids : ∀ gs id,
  id ∈ ids → List.find (has_id id) gs = None →
  LogWarning (not_found_message id) ∈ removal_calls golden_sql_collection ids gs.
Proof.
  induction ids as [|id' rest IH]; intros gs id Hin Habsent; [inversion Hin|].
  cbn [removal_calls]. apply elem_of_app.
  apply elem_of_cons in Hin as [->|Hin].
  - left. apply removal_round_warning. rewrite (delete_first_absent _ _ Habsent).
    reflexivity.
  - right. apply IH; [exact Hin|]. apply delete_first_keeps_absent. exact Habsent.
Qed.

Lemma removed_keeps_deleted ids : ∀ w key,
  vector_store w !! key = None →
  vector_store (removed golden_sql_collection ids w) !! key = None.
Proof.
  induction ids as [|id rest IH]; intros w key Hkey; [exact Hkey|].
  rewrite removed_cons.
  apply IH. cbn [remove_one vector_store].
  rewrite lookup_delete_None. right. exact Hkey.
Qed.

Lemma removed_deletes ids : ∀ w id,
  id ∈ ids →
  vector_store (removed golden_sql_collection ids w) !! (golden_sql_collection, id) = None.
Proof.
  induction ids as [|id' rest IH]; intros w id Hin; [inversion Hin|].
  rewrite removed_cons.
  apply elem_of_cons in Hin as [->|Hin].
  - apply removed_keeps_deleted. cbn [remove_one vector_store].
    apply lookup_delete_eq.
  - apply IH. exact Hin.
Qed.

Lemma removed_nothing_to_delete ids : ∀ w,
  (∀ id, id ∈ ids → vector_store w !! (golden_sql_collection, id) = None) →
  vector_store (removed golden_sql_collection ids w) = vector_store w.
Proof.
  induction ids as [|id rest IH]; intros w Hnone; [reflexivity|].
  rewrite removed_cons.
  assert (Hid : delete (golden_sql_collection, id) (vector_store w) = vector_store w).
  { apply delete_id. apply Hnone. left. }
  rewrite IH; cbn [remove_one vector_store]; rewrite Hid; [reflexivity|].
  intros id' Hid'. apply Hnone. right. exact Hid'.
Qed.

(** C5. [remove_golden_sqls] always returns [True]. For each id, in list
    order, it calls the vector index and then the record store; apart from
    these calls it only logs, and what it logs are warnings for ids of the
    list, one in every round whose record delete reported zero rows, which
    covers every id without a record. A second call with the same ids
    returns [True] again and finds nothing left to delete in the index. *)
Theorem remove_golden_sqls_best_effort ids w :
  remove_golden_sqls golden_sql_collection ids w
    = (Returns true, removed golden_sql_collection ids w)
  ∧ trace (removed golden_sql_collection ids w)
    = trace w ++ removal_calls golden_sql_collection ids (golden_sqls w)
  ∧ filter (λ c, is_log c = false)
      (removal_calls golden_sql_collection ids (golden_sqls w))
    = (ids ≫= λ id, [VsDeleteRecord golden_sql_collection id; RepoDeleteById id])
  ∧ (∀ c, c ∈ removal_calls golden_sql_collection ids (golden_sqls w) →
          is_log c = true → ∃ id, id ∈ ids ∧ c = LogWarning (not_found_message id))
  ∧ (∀ id gs, LogWarning (not_found_message id)
                ∈ removal_round golden_sql_collection id gs
              ↔ (delete_first id gs).2 = 0)
  ∧ (∀ id, id ∈ ids → List.find (has_id id) (golden_sqls w) = None →
           LogWarning (not_found_message id)
             ∈ removal_calls golden_sql_collection ids (golden_sqls w))
  ∧ remove_golden_sqls golden_sql_collection ids (removed golden_sql_collection ids w)
    = (Returns true,
       removed golden_sql_collection ids (removed golden_sql_collection ids w))
  ∧ vector_store (removed golden_sql_collection ids (removed golden_sql_collection ids w))
    = vector_store (removed golden_sql_collection ids w).
Proof.
  assert (Hrun : ∀ w0, remove_golden_sqls golden_sql_collection ids w0
                       = (Returns true, removed golden_sql_collection ids w0)).
  { intros w0. unfold remove_golden_sqls.
    rewrite (bind_returns _ _ _ _ _ (remove_each_run ids w0)). reflexivity. }
  split; [apply Hrun|].
  split; [apply removed_trace|].
  split; [apply removal_calls_store_calls|].
  split; [apply removal_calls_logs|].
  split; [apply removal_round_warning|].
  split; [intros id; apply removal_calls_warns|].
  split; [apply Hrun|].
  apply removed_nothing_to_delete. intros id Hid. apply removed_deletes. exact Hid.
Qed.

End RemoveGoldenSQLs.

(** A stored record is removed without a warning; removing it again
    returns [True] as well and logs the warning. *)
Example remove_golden_sqls_twice :
  let w := Fixture.holding [Fixture.golden_sql "show all users" "SELECT * FROM users"] in
  let w1 := (remove_golden_sqls Fixture.golden_sql_collection ["id0"] w).2 in
  (remove_golden_sqls Fixture.golden_sql_collection ["id0"] w).1 = Returns true
  ∧ (remove_golden_sqls Fixture.golden_sql_collection ["id0"] w1).1 = Returns true
  ∧ filter (λ c, is_log c = true) (trace w1) = []
  ∧ filter (λ c, is_log c = true)
      (trace (remove_golden_sqls Fixture.golden_sql_collection ["id0"] w1).2)
    = [LogWarning (not_found_message "id0")]
  ∧ golden_sqls w1 = [] ∧ vector_store w1 = ∅.
Proof. vm_compute. repeat split. Qed.

(** ** add_context_file *)

Lemma chunk_id_inj context_file i j :
  chunk_id context_file i = chunk_id context_file j → i = j.
Proof.
  unfold chunk_id, str. intros H.
  apply (inj (String.app (ContextFile.id context_file))) in H.
  apply (inj pretty) in H. exact H.
Qed.

Lemma imap_shift {A B : Type} (f : nat → A → B) (l : list A) : ∀ index,
  imap (λ i, f (index + i)%nat) l
  = match l with
    | [] => []
    | x :: rest => f index x :: imap (λ i, f (S index + i)%nat) rest
    end.
Proof.
  intros index. destruct l as [|x rest]; [reflexivity|].
  rewrite imap_cons, Nat.add_0_r. f_equal.
  apply imap_ext. intros i y _. simpl. f_equal. lia.
Qed.

Section AddContextFile.

Variable create_documents : Z → Z → string → list string.
Variable context_files_collection : string.

Lemma vector_store_add_record_run document conn metadata id w :
  vector_store_add_record document conn context_files_collection metadata id w
  = (Returns tt,
     {| golden_sqls := golden_sqls w; instructions := instructions w;
        inserted := inserted w;
        vector_store :=
          <[(context_files_collection, id) :=
              {| vr_document := document; vr_db_connection_id := conn;
                 vr_metadata := metadata |}]> (vector_store w);
        now := now w;
        trace := trace w ++ [VsAddRecord document conn context_files_collection metadata id] |}).
Proof. reflexivity. Qed.

Lemma add_chunks_run context_file texts : ∀ index w,
  add_chunks context_files_collection context_file index texts w
  = (Returns tt,
     {| golden_sqls := golden_sqls w; instructions := instructions w;
        inserted := inserted w;
        vector_store :=
          index_chunks context_files_collection context_file index texts (vector_store w);
        now := now w;
        trace := trace w
                   ++ imap (λ i, chunk_call context_files_collection context_file
                                   (index + i)%nat) texts |}).
Proof.
  induction texts as [|text rest IH]; intros index w.
  - simpl. rewrite app_nil_r. destruct w; reflexivity.
  - cbn [add_chunks].
    rewrite (bind_returns _ _ _ _ _ (vector_store_add_record_run _ _ _ _ w)).
    rewrite IH. rewrite (imap_shift _ (text :: rest)).
    cbn [golden_sqls instructions inserted vector_store now trace index_chunks].
    rewrite <- app_assoc. reflexivity.
Qed.

Lemma add_context_file_run context_file content w :
  add_context_file create_documents context_files_collection context_file content w
  = (Returns true,
     {| golden_sqls := golden_sqls w; instructions := instructions w;
        inserted := inserted w;
        vector_store :=
          index_chunks context_files_collection context_file 0
            (create_documents 1000 50 content) (vector_store w);
        now := now w;
        trace := trace w
                   ++ ingestion_calls context_files_collection context_file
                        (create_documents 1000 50 content) |}).
Proof.
  unfold add_context_file, logger_info.
  rewrite (bind_returns _ _ _ _ _ (call_run _ w)). cbv zeta.
  rewrite (bind_returns _ _ _ _ _ (call_run _ _)).
  rewrite (bind_returns _ _ _ _ _ (add_chunks_run _ _ _ _)).
  unfold ingestion_calls, append_trace.
  cbn [golden_sqls instructions inserted vector_store now trace mret M_ret].
  rewrite <- !app_assoc. reflexivity.
Qed.

Lemma index_chunks_insert context_file texts : ∀ index vs key record,
  (∀ j, (index ≤ j)%nat → key ≠ (context_files_collection, chunk_id context_file j)) →
  <[key := record]> (index_chunks context_files_collection context_file index texts vs)
  = index_chunks context_files_collection context_file index texts (<[key := record]> vs).
Proof.
  induction texts as [|text rest IH]; intros index vs key record Hkey; [reflexivity|].
  cbn [index_chunks]. rewrite IH by (intros j Hj; apply Hkey; lia).
  rewrite (insert_insert_ne _ key) by (apply Hkey; lia). reflexivity.
Qed.

Lemma index_chunks_again context_file texts : ∀ index vs,
  index_chunks context_files_collection context_file index texts
    (index_chunks context_files_collection context_file index texts vs)
  = index_chunks context_files_collection context_file index texts vs.
Proof.
  induction texts as [|text rest IH]; intros index vs; [reflexivity|].
  cbn [index_chunks]. rewrite index_chunks_insert.
  - rewrite insert_insert_eq. apply IH.
  - intros j Hj [= Heq]. apply chunk_id_inj in Heq. lia.
Qed.

Lemma ingestion_store_calls context_file texts :
  filter (λ c, is_log c = false)
    (ingestion_calls context_files_collection context_file texts)
  = imap (chunk_call context_files_collection context_file) texts.
Proof.
  unfold ingestion_calls. rewrite filter_app.
  assert (Hall : ∀ l : list string, ∀ index,
    filter (λ c, is_log c = false)
      (imap (λ i, chunk_call context_files_collection context_file (index + i)%nat) l)
    = imap (λ i, chunk_call context_files_collection context_file (index + i)%nat) l).
  { induction l as [|x rest IH]; intros index; [reflexivity|].
    rewrite imap_shift. rewrite filter_cons_True by reflexivity. rewrite IH. reflexivity. }
  exact (Hall texts 0%nat).
Qed.

Lemma index_chunks_lookup context_file texts : ∀ index vs j text,
  texts !! j = Some text →
  index_chunks context_files_collection context_file index texts vs
    !! (context_files_collection, chunk_id context_file (index + j))
  = Some (chunk_record context_file text).
Proof.
  induction texts as [|first rest IH]; intros index vs j text Hj; [discriminate|].
  cbn [index_chunks]. destruct j as [|j].
  - injection Hj as ->. rewrite Nat.add_0_r.
    rewrite <- index_chunks_insert.
    + apply lookup_insert_eq.
    + intros j Hj [= Heq]. apply chunk_id_inj in Heq. lia.
  - replace (index + S j)%nat with (S index + j)%nat by lia.
    apply IH. exact Hj.
Qed.

(** C7. The chunks of a file are inserted in order, the chunk at
    position [index] under the identifier [context_file.id + str(index)];
    different positions give different identifiers. The inserts depend on
    the file and the content alone, so ingesting the same content again
    makes the same calls, and the vector index, which holds each chunk
    under its identifier, is left as the first ingestion left it. *)
Theorem add_context_file_chunk_ids context_file content w :
  let texts := create_documents 1000 50 content in
  let add := add_context_file create_documents context_files_collection
               context_file content in
  (add w).1 = Returns true
  ∧ (add (add w).2).1 = Returns true
  ∧ trace (add w).2
    = trace w ++ ingestion_calls context_files_collection context_file texts
  ∧ trace (add (add w).2).2
    = trace (add w).2 ++ ingestion_calls context_files_collection context_file texts
  ∧ filter (λ c, is_log c = false)
      (ingestion_calls context_files_collection context_file texts)
    = imap (λ index text,
              VsAddRecord text (ContextFile.db_connection_id context_file)
                context_files_collection (chunk_metadata context_file text)
                (ContextFile.id context_file +:+ str index)) texts
  ∧ (∀ i j, ContextFile.id context_file +:+ str i
            = ContextFile.id context_file +:+ str j → i = j)
  ∧ (∀ index text, texts !! index = Some text →
       vector_store (add w).2
         !! (context_files_collection, ContextFile.id context_file +:+ str index)
       = Some (chunk_record context_file text))
  ∧ vector_store (add (add w).2).2 = vector_store (add w).2.
Proof.
  intros texts add. unfold add, texts.
  rewrite !add_context_file_run. cbn [fst snd trace vector_store].
  split; [reflexivity|]. split; [reflexivity|].
  split; [reflexivity|]. split; [reflexivity|].
  split; [apply ingestion_store_calls|].
  split; [apply chunk_id_inj|].
  split; [|apply index_chunks_again].
  intros index text Hindex.
  exact (index_chunks_lookup context_file _ 0%nat (vector_store w) index text Hindex).
Qed.

End AddContextFile.

(** C10. The chunks [add_context_file] inserts are those the splitter
    makes of the content at chunk size 1000 and overlap 50, whatever the
    file, the content and the state; the call takes no size of its own, and
    two splitters that agree at 1000 and 50 on the content give the same
    run, however they differ at other sizes. *)
Theorem add_context_file_fixed_chunking
    (create_documents create_documents' : Z → Z → string → list string)
    (context_files_collection : string) (context_file : ContextFile.t)
    (content : string) (w : World) :
  (add_context_file create_documents context_files_collection context_file content w).1
    = Returns true
  ∧ trace (add_context_file create_documents context_files_collection
             context_file content w).2
    = trace w ++ ingestion_calls context_files_collection context_file
                   (create_documents 1000 50 content)
  ∧ omap added_document
      (ingestion_calls context_files_collection context_file
         (create_documents 1000 50 content))
    = create_documents 1000 50 content
  ∧ (create_documents 1000 50 content = create_documents' 1000 50 content →
     add_context_file create_documents context_files_collection context_file content w
     = add_context_file create_documents' context_files_collection context_file content w).
Proof.
  rewrite !add_context_file_run. cbn [fst snd trace].
  split; [reflexivity|]. split; [reflexivity|]. split.
  - unfold ingestion_calls. cbn [app omap list_omap added_document].
    generalize (create_documents 1000 50 content). intros texts.
    assert (Hall : ∀ l : list string, ∀ index,
      omap added_document
        (imap (λ i, chunk_call context_files_collection context_file (index + i)%nat) l)
      = l).
    { induction l as [|x rest IH]; intros index; [reflexivity|].
      rewrite imap_shift. cbn [omap list_omap added_document chunk_call].
      rewrite IH. reflexivity. }
    exact (Hall texts 0%nat).
  - intros Heq. rewrite Heq. reflexivity.
Qed.

(** The theorem above on a splitter and on one that ignores its sizes. *)
Lemma add_context_file_fixed_chunking_witness :
  add_context_file Fixture.create_documents Fixture.context_files_collection
    Fixture.context_file "orders hold one row per sale" Fixture.empty_world
  = add_context_file Fixture.create_documents_1000_50 Fixture.context_files_collection
      Fixture.context_file "orders hold one row per sale" Fixture.empty_world.
Proof.
  apply (add_context_file_fixed_chunking Fixture.create_documents
           Fixture.create_documents_1000_50).
  reflexivity.
Defined.

Example add_context_file_three_chunks :
  let w := (add_context_file Fixture.create_documents Fixture.context_files_collection
              Fixture.context_file Fixture.long_content Fixture.empty_world).2 in
  String.length Fixture.long_content = 2500%nat
  ∧ String.length <$> omap added_document (trace w) = [1000; 1000; 600]%nat
  ∧ fst <$> map_to_list (vector_store w)
    ≡ₚ [(Fixture.context_files_collection, "65a0c0ffee65a0c0ffee00010");
        (Fixture.context_files_collection, "65a0c0ffee65a0c0ffee00011");
        (Fixture.context_files_collection, "65a0c0ffee65a0c0ffee00012")].
Proof.
  split; [reflexivity|]. split; [vm_compute; reflexivity|].
  vm_compute. apply (bool_decide_unpack _). vm_compute. exact I.
Qed.

(** ** delete_context_file *)

Lemma metadata_matches_file_name name r :
  metadata_matches {["file_name" := name]} r = true
  ↔ vr_metadata r !! "file_name" = Some name.
Proof.
  unfold metadata_matches. rewrite bool_decide_eq_true.
  apply map_singleton_subseteq_l.
Qed.

(** C9. [delete_context_file] makes one metadata delete on the
    context-file collection, with [file_name] as the only key of the
    predicate. A chunk is in the index afterwards exactly when it was there
    and is not a chunk of that collection with that file name; its
    connection id plays no part, so chunks of another connection under the
    same file name are deleted too. *)
Theorem delete_context_file_by_name (context_files_collection : string)
    (context_file : ContextFile.t) (w : World) :
  let w' := (delete_context_file context_files_collection context_file w).2 in
  (delete_context_file context_files_collection context_file w).1 = Returns true
  ∧ trace w' = trace w ++ [VsDeleteRecordByMetadata context_files_collection
                             {["file_name" := ContextFile.file_name context_file]}]
  ∧ golden_sqls w' = golden_sqls w
  ∧ instructions w' = instructions w
  ∧ (∀ key r,
       vector_store w' !! key = Some r
       ↔ vector_store w !! key = Some r
         ∧ ¬ (key.1 = context_files_collection
              ∧ vr_metadata r !! "file_name" = Some (ContextFile.file_name context_file)))
  ∧ (∀ key r,
       vector_store w !! key = Some r →
       key.1 = context_files_collection →
       vr_metadata r !! "file_name" = Some (ContextFile.file_name context_file) →
       vr_db_connection_id r ≠ ContextFile.db_connection_id context_file →
       vector_store w' !! key = None).
Proof.
  assert (Hkeep : ∀ key r,
    vector_store (delete_context_file context_files_collection context_file w).2 !! key
      = Some r
    ↔ vector_store w !! key = Some r
      ∧ ¬ (key.1 = context_files_collection
           ∧ vr_metadata r !! "file_name" = Some (ContextFile.file_name context_file))).
  { intros key r. cbn [delete_context_file snd].
    change (vector_store (delete_context_file context_files_collection context_file w).2)
      with (filter (λ entry, ¬ deleted_by context_files_collection
                                 {["file_name" := ContextFile.file_name context_file]} entry)
              (vector_store w)).
    rewrite map_lookup_filter_Some. unfold deleted_by. cbn [fst snd].
    rewrite metadata_matches_file_name. reflexivity. }
  cbv zeta. split; [reflexivity|]. split; [reflexivity|].
  split; [reflexivity|]. split; [reflexivity|]. split; [exact Hkeep|].
  intros key r Hr Hcoll Hname _.
  destruct (vector_store (delete_context_file context_files_collection context_file w).2
              !! key) as [r'|] eqn:Hr'; [|reflexivity].
  apply Hkeep in Hr' as [Hr' Hnot].
  assert (r' = r) by congruence. subst r'. destruct Hnot. auto.
Qed.

(** The theorem above on an index where two connections hold a chunk of a
    file of one name: deleting the file of the first connection removes the
    chunk of the second. *)
Lemma delete_context_file_by_name_witness :
  vector_store
    (delete_context_file Fixture.context_files_collection Fixture.context_file
       Fixture.shared_name_world).2
    !! (Fixture.context_files_collection, "b0") = None.
Proof.
  apply (proj2 (proj2 (proj2 (proj2 (proj2
           (delete_context_file_by_name Fixture.context_files_collection
              Fixture.context_file Fixture.shared_name_world)))))
           (Fixture.context_files_collection, "b0")
           {| vr_document := "second";
              vr_db_connection_id := "65a0c0ffee65a0c0ffee0002";
              vr_metadata := <["file_name" := "notes.txt"]>
                               (<["db_connection_id" := "65a0c0ffee65a0c0ffee0002"]>
                                  (<["text" := "second"]> ∅)) |}).
  - vm_compute. reflexivity.
  - reflexivity.
  - vm_compute. reflexivity.
  - vm_compute. discriminate.
Defined.

(** * Further properties *)

(** ** Lookups in the record store *)

Lemma find_app {A : Type} (f : A → bool) (l1 l2 : list A) :
  List.find f (l1 ++ l2)
  = match List.find f l1 with Some x => Some x | None => List.find f l2 end.
Proof.
  induction l1 as [|x l1 IH]; [reflexivity|].
  cbn [app List.find]. destruct (f x); [reflexivity | exact IH].
Qed.

Lemma find_absent id (gs : list GoldenSQL.t) :
  Some id ∉ GoldenSQL.id <$> gs → List.find (has_id id) gs = None.
Proof.
  induction gs as [|g rest IH]; [reflexivity|].
  rewrite fmap_cons, not_elem_of_cons. intros [Hne Hrest].
  cbn [List.find]. unfold has_id at 1.
  rewrite bool_decide_eq_false_2 by congruence. apply IH. exact Hrest.
Qed.

Lemma vector_store_add_records_run gs collection w :
  vector_store_add_records gs collection w
  = (Returns tt,
     {| golden_sqls := golden_sqls w; instructions := instructions w;
        inserted := inserted w;
        vector_store := index_golden_sqls collection gs (vector_store w);
        now := now w;
        trace := trace w ++ [VsAddRecords gs collection] |}).
Proof. reflexivity. Qed.

(** ** add_golden_sqls, batch by batch *)

(** X1. [add_golden_sqls] returns on the empty batch only: there it
    returns the empty list after one [add_records] call with an empty list,
    which leaves both stores as they were. On any other batch it raises at
    the first request and the world is the one it found, so a call that
    returns has stored nothing. *)
Theorem add_golden_sqls_returns_only_empty
    (Parser_tables : string → bool) (later : datetime → datetime)
    (new_id : nat → string) (golden_sql_collection : string)
    (batch : list GoldenSQLRequest.t) (w : World) :
  let run := add_golden_sqls Parser_tables later new_id golden_sql_collection batch w in
  (batch = [] →
     run = (Returns [], append_trace w [VsAddRecords [] golden_sql_collection]))
  ∧ (∀ stored w', run = (Returns stored, w') → batch = [] ∧ stored = [])
  ∧ (batch ≠ [] → ∃ e, run = (Raises e, w))
  ∧ same_stores w run.2.
Proof.
  cbv zeta. destruct batch as [|record rest].
  - split; [reflexivity|]. split; [|split].
    + intros stored w' [= <- _]. auto.
    + congruence.
    + repeat split.
  - rewrite add_golden_sqls_nonempty. split; [discriminate|]. split; [|split].
    + discriminate.
    + eauto.
    + repeat split.
Qed.

(** ** Frames of remove_golden_sqls *)

Lemma removed_other collection ids : ∀ w key,
  key ∉ (λ id, (collection, id)) <$> ids →
  vector_store (removed collection ids w) !! key = vector_store w !! key.
Proof.
  induction ids as [|id rest IH]; intros w key Hkey; [reflexivity|].
  rewrite fmap_cons in Hkey. apply not_elem_of_cons in Hkey as [Hne Hkey].
  rewrite removed_cons, IH by exact Hkey.
  cbn [remove_one vector_store]. apply lookup_delete_ne. congruence.
Qed.

Lemma removed_frame collection ids : ∀ w,
  instructions (removed collection ids w) = instructions w
  ∧ inserted (removed collection ids w) = inserted w
  ∧ now (removed collection ids w) = now w.
Proof.
  induction ids as [|id rest IH]; intros w; [auto|].
  rewrite removed_cons. destruct (IH (remove_one collection id w)) as (-> & -> & ->).
  auto.
Qed.

(** ** What retrieval answers *)

Lemma default_none_if_empty {A : Type} (l : list A) : default [] (none_if_empty l) = l.
Proof. destruct l; reflexivity. Qed.

Lemma resolved_stand_for gs closest :
  Forall2 (sample_stands_for gs)
    (filter (λ q, is_Some (List.find (has_id (m_id q)) gs)) closest)
    (omap (resolve gs) closest).
Proof.
  induction closest as [|q rest IH]; [constructor|].
  rewrite filter_cons. cbn [omap list_omap]. unfold resolve at 1.
  destruct (List.find (has_id (m_id q)) gs) as [g|] eqn:Hfind.
  - rewrite decide_True by eauto. cbn [fmap option_fmap option_map].
    constructor; [|exact IH].
    split; [reflexivity|]. exists g. rewrite Hfind. auto.
  - rewrite decide_False by (intros [? ?]; discriminate). exact IH.
Qed.

Lemma concat_texts_world context_files : ∀ text_content w w',
  (concat_texts context_files text_content w).2 = w
  ∧ (concat_texts context_files text_content w).1
    = (concat_texts context_files text_content w').1.
Proof.
  induction context_files as [|m rest IH]; intros text_content w w'; [auto|].
  cbn [concat_texts]. destruct (m_metadata m !! "text"); [apply IH | auto].
Qed.

Lemma concat_texts_missing context_files : ∀ text_content w,
  Exists (λ m, m_metadata m !! "text" = None) context_files →
  concat_texts context_files text_content w = (Raises (KeyError "text"), w).
Proof.
  induction context_files as [|m rest IH]; intros text_content w Hex; [inversion Hex|].
  cbn [concat_texts]. destruct (m_metadata m !! "text") as [text|] eqn:Hm; [|reflexivity].
  apply IH. inversion Hex as [? ? Hhd|]; subst; [congruence | assumption].
Qed.

Section RetrievalAnswers.

Variable similarity :
  gmap (string * string) VectorRecord → list string → string → string → Z → list Match.
Variable golden_sql_collection : string.
Variable context_files_collection : string.

Lemma retrieve_context_files_run prompt k w :
  retrieve_context_files similarity context_files_collection prompt k w
  = ((concat_texts
        (similarity (vector_store w) [Prompt.text prompt] (Prompt.db_connection_id prompt)
           context_files_collection (default 3 k)) "" w).1,
     append_trace w [VsQuery [Prompt.text prompt] (Prompt.db_connection_id prompt)
                       context_files_collection (default 3 k)]).
Proof.
  unfold retrieve_context_files.
  rewrite (bind_returns _ _ _ _ _ (vector_store_query_run similarity _ _ _ _ w)).
  destruct (concat_texts_world
              (similarity (vector_store w) [Prompt.text prompt]
                 (Prompt.db_connection_id prompt) context_files_collection (default 3 k))
              ""
              (append_trace w [VsQuery [Prompt.text prompt] (Prompt.db_connection_id prompt)
                                 context_files_collection (default 3 k)]) w) as [Hw Hr].
  rewrite (surjective_pairing (concat_texts _ _ _)), Hw, Hr. reflexivity.
Qed.

(** X4. The samples of [retrieve_context_for_question] follow the rank
    order of the similarity query: they stand, one for one and in order,
    for the matches whose record the store still has, each with the score of
    its match and the prompt text and SQL of that record; matches without a
    record leave no trace in the answer, so there are never more samples
    than matches. *)
Theorem samples_follow_rank prompt k w :
  ∃ samples instructions_,
    (retrieve_context_for_question similarity golden_sql_collection prompt k w).1
      = Returns (samples, instructions_)
    ∧ Forall2 (sample_stands_for (golden_sqls w))
        (filter (λ q, is_Some (List.find (has_id (m_id q)) (golden_sqls w)))
           (similarity (vector_store w) [Prompt.text prompt]
              (Prompt.db_connection_id prompt) golden_sql_collection (default 3 k)))
        (default [] samples)
    ∧ (length (default [] samples)
       ≤ length (similarity (vector_store w) [Prompt.text prompt]
                   (Prompt.db_connection_id prompt) golden_sql_collection
                   (default 3%Z k)))%nat.
Proof.
  rewrite retrieve_context_for_question_run. cbn [fst].
  eexists _, _. split; [reflexivity|].
  rewrite default_none_if_empty.
  pose proof (resolved_stand_for (golden_sqls w)
                (similarity (vector_store w) [Prompt.text prompt]
                   (Prompt.db_connection_id prompt) golden_sql_collection (default 3 k)))
    as Hall.
  split; [exact Hall|].
  rewrite <- (Forall2_length _ _ _ Hall). apply length_filter.
Qed.

(** X5. [retrieve_context_files] raises [KeyError] for the key [text] as
    soon as one match of the query has no text in its metadata, whatever
    the other matches carry; the only call made is the query. *)
Theorem retrieve_context_files_missing_text prompt k w :
  Exists (λ m, m_metadata m !! "text" = None)
    (similarity (vector_store w) [Prompt.text prompt] (Prompt.db_connection_id prompt)
       context_files_collection (default 3 k)) →
  retrieve_context_files similarity context_files_collection prompt k w
  = (Raises (KeyError "text"),
     append_trace w [VsQuery [Prompt.text prompt] (Prompt.db_connection_id prompt)
                       context_files_collection (default 3 k)]).
Proof.
  intros Hex. rewrite retrieve_context_files_run.
  rewrite (concat_texts_missing _ "" w Hex). reflexivity.
Qed.

(** X6. Both retrieval operations can be repeated: a second call, made in
    the world the first one left, gives the outcome of the first (the same
    answer or the same exception), and the stores are still those the first
    call found. *)
Theorem retrieval_repeatable prompt k w :
  let for_question := retrieve_context_for_question similarity golden_sql_collection
                        prompt k in
  let files := retrieve_context_files similarity context_files_collection prompt k in
  (for_question (for_question w).2).1 = (for_question w).1
  ∧ same_stores w (for_question (for_question w).2).2
  ∧ (files (files w).2).1 = (files w).1
  ∧ same_stores w (files (files w).2).2
  ∧ (for_question (files w).2).1 = (for_question w).1
  ∧ (files (for_question w).2).1 = (files w).1.
Proof.
  cbv zeta. rewrite ?retrieve_context_for_question_run, ?retrieve_context_files_run.
  cbn [fst snd]. rewrite ?retrieve_context_for_question_run, ?retrieve_context_files_run.
  cbn [fst snd append_trace golden_sqls instructions vector_store].
  split; [reflexivity|]. split; [repeat split|].
  split; [apply concat_texts_world|]. split; [repeat split|].
  split; [reflexivity | apply concat_texts_world].
Qed.

End RetrievalAnswers.

(** The theorem above when the context-file collection has the name of the
    golden-SQL collection: the match is a golden SQL, indexed without text. *)
Lemma retrieve_context_files_missing_text_witness :
  (retrieve_context_files Fixture.similarity Fixture.golden_sql_collection
     (Fixture.prompt "list every user") None one_collection_world).1
  = Raises (KeyError "text").
Proof.
  rewrite (retrieve_context_files_missing_text Fixture.similarity
             Fixture.golden_sql_collection (Fixture.prompt "list every user") None
             one_collection_world).
  - reflexivity.
  - vm_compute. apply Exists_cons_hd. reflexivity.
Defined.

(** ** The context-file collection *)

Lemma chunk_metadata_text context_file text :
  chunk_metadata context_file text !! "text" = Some text.
Proof.
  unfold chunk_metadata.
  rewrite lookup_insert_ne by discriminate.
  rewrite lookup_insert_ne by discriminate.
  apply lookup_insert_eq.
Qed.

Lemma chunk_metadata_file_name context_file text :
  chunk_metadata context_file text !! "file_name"
  = Some (ContextFile.file_name context_file).
Proof. unfold chunk_metadata. apply lookup_insert_eq. Qed.

Lemma delete_context_file_run collection context_file w :
  delete_context_file collection context_file w
  = (Returns true,
     {| golden_sqls := golden_sqls w; instructions := instructions w;
        inserted := inserted w;
        vector_store :=
          filter (λ entry, ¬ deleted_by collection
                               {["file_name" := ContextFile.file_name context_file]} entry)
            (vector_store w);
        now := now w;
        trace := trace w ++ [VsDeleteRecordByMetadata collection
                               {["file_name" := ContextFile.file_name context_file]}] |}).
Proof. reflexivity. Qed.

Lemma delete_context_file_lookup collection context_file w key r :
  vector_store (delete_context_file collection context_file w).2 !! key = Some r
  ↔ vector_store w !! key = Some r
    ∧ ¬ (key.1 = collection
         ∧ vr_metadata r !! "file_name" = Some (ContextFile.file_name context_file)).
Proof.
  rewrite delete_context_file_run. cbn [snd vector_store].
  rewrite map_lookup_filter_Some. unfold deleted_by. cbn [fst snd].
  rewrite metadata_matches_file_name. reflexivity.
Qed.

Lemma index_chunks_other collection context_file texts : ∀ index vs key,
  (∀ i, (i < length texts)%nat → key ≠ (collection, chunk_id context_file (index + i))) →
  index_chunks collection context_file index texts vs !! key = vs !! key.
Proof.
  induction texts as [|text rest IH]; intros index vs key Hkey; [reflexivity|].
  cbn [index_chunks]. rewrite IH.
  - apply lookup_insert_ne. specialize (Hkey 0%nat). rewrite Nat.add_0_r in Hkey.
    intros Heq. apply Hkey; [simpl; lia | congruence].
  - intros i Hi. replace (S index + i)%nat with (index + S i)%nat by lia.
    apply Hkey. simpl. lia.
Qed.

Lemma index_chunks_have_text collection context_file texts : ∀ index vs,
  chunks_have_text collection vs →
  chunks_have_text collection (index_chunks collection context_file index texts vs).
Proof.
  induction texts as [|text rest IH]; intros index vs Hvs; [exact Hvs|].
  cbn [index_chunks]. apply IH. apply map_Forall_insert_2; [|exact Hvs].
  cbv beta. intros _. cbn [chunk_record vr_metadata].
  rewrite chunk_metadata_text. eauto.
Qed.

Lemma index_golden_sqls_other_collection collection other gs : ∀ vs,
  other ≠ collection →
  chunks_have_text collection vs →
  chunks_have_text collection (index_golden_sqls other gs vs).
Proof.
  unfold index_golden_sqls.
  induction gs as [|g rest IH]; intros vs Hne Hvs; [exact Hvs|].
  cbn [foldl]. apply IH; [exact Hne|].
  apply map_Forall_insert_2; [|exact Hvs]. cbv beta. cbn [fst]. intros Heq. contradiction.
Qed.

Lemma removed_have_text collection other ids : ∀ w,
  chunks_have_text collection (vector_store w) →
  chunks_have_text collection (vector_store (removed other ids w)).
Proof.
  induction ids as [|id rest IH]; intros w Hw; [exact Hw|].
  rewrite removed_cons. apply IH. cbn [remove_one vector_store].
  apply map_Forall_delete. exact Hw.
Qed.

Lemma concat_texts_returns context_files : ∀ text_content w,
  Forall (λ m, is_Some (m_metadata m !! "text")) context_files →
  ∃ text, concat_texts context_files text_content w = (Returns text, w).
Proof.
  induction context_files as [|m rest IH]; intros text_content w Hall.
  - exists text_content. reflexivity.
  - inversion Hall as [|? ? [text Hm] Hrest]; subst.
    cbn [concat_texts]. rewrite Hm. apply IH. exact Hrest.
Qed.

Section ContextFileCollection.

Variable Parser_tables : string → bool.
Variable later : datetime → datetime.
Variable create_documents : Z → Z → string → list string.
Variable similarity :
  gmap (string * string) VectorRecord → list string → string → string → Z → list Match.
Variable new_id : nat → string.
Variable golden_sql_collection : string.
Variable context_files_collection : string.

Lemma add_golden_sqls_vector_store batch w :
  vector_store (add_golden_sqls Parser_tables later new_id golden_sql_collection
                  batch w).2
  = vector_store w.
Proof.
  destruct batch as [|record rest]; [reflexivity|].
  rewrite add_golden_sqls_nonempty. reflexivity.
Qed.

(** X7. That every record of the context-file collection carries a text in
    its metadata is kept by every operation of the store that writes:
    [add_context_file] and [delete_context_file], and also
    [remove_golden_sqls] and, when the golden-SQL collection is another
    collection, [add_golden_sqls], whether it returns or raises. *)
Theorem chunks_keep_text w context_file content ids batch :
  chunks_have_text context_files_collection (vector_store w) →
  chunks_have_text context_files_collection
    (vector_store (add_context_file create_documents context_files_collection
                     context_file content w).2)
  ∧ chunks_have_text context_files_collection
      (vector_store (delete_context_file context_files_collection context_file w).2)
  ∧ chunks_have_text context_files_collection
      (vector_store (remove_golden_sqls golden_sql_collection ids w).2)
  ∧ (golden_sql_collection ≠ context_files_collection →
     chunks_have_text context_files_collection
       (vector_store (add_golden_sqls Parser_tables later new_id
                        golden_sql_collection batch w).2)).
Proof.
  intros Hw. split; [|split; [|split]].
  - rewrite add_context_file_run. cbn [snd vector_store].
    apply index_chunks_have_text. exact Hw.
  - intros key r Hr. apply delete_context_file_lookup in Hr as [Hr _].
    exact (Hw key r Hr).
  - unfold remove_golden_sqls.
    rewrite (bind_returns _ _ _ _ _ (remove_each_run golden_sql_collection ids w)).
    cbn [snd mret M_ret]. apply removed_have_text. exact Hw.
  - intros _. rewrite add_golden_sqls_vector_store. exact Hw.
Qed.

(** X8. When every record of the context-file collection carries a text
    and the matches of the query are records of that collection,
    [retrieve_context_files] returns a string: it does not raise. *)
Theorem retrieve_context_files_returns prompt k w :
  chunks_have_text context_files_collection (vector_store w) →
  answers_from_index context_files_collection (vector_store w)
    (similarity (vector_store w) [Prompt.text prompt] (Prompt.db_connection_id prompt)
       context_files_collection (default 3 k)) →
  ∃ text,
    (retrieve_context_files similarity context_files_collection prompt k w).1
    = Returns text.
Proof.
  intros Hw Hms. rewrite retrieve_context_files_run. cbn [fst].
  destruct (concat_texts_returns
              (similarity (vector_store w) [Prompt.text prompt]
                 (Prompt.db_connection_id prompt) context_files_collection (default 3 k))
              "" w) as [text Htext].
  - eapply Forall_impl; [exact Hms|]. intros m (r & Hr & ->).
    exact (Hw _ r Hr eq_refl).
  - exists text. rewrite Htext. reflexivity.
Qed.

(** X9. [add_context_file] writes nothing but the chunks of its file: the
    record store is as before, and every record of the vector index other
    than those under the identifiers of the chunks is as before, so without
    chunks the index does not change at all. *)
Theorem add_context_file_frame context_file content w :
  let w' := (add_context_file create_documents context_files_collection
               context_file content w).2 in
  let texts := create_documents 1000 50 content in
  golden_sqls w' = golden_sqls w
  ∧ instructions w' = instructions w
  ∧ (∀ key,
       (∀ i, (i < length texts)%nat →
             key ≠ (context_files_collection,
                    ContextFile.id context_file +:+ str i)) →
       vector_store w' !! key = vector_store w !! key)
  ∧ (texts = [] → vector_store w' = vector_store w)
  ∧ length (omap added_document (drop (length (trace w)) (trace w'))) = length texts.
Proof.
  cbv zeta. rewrite add_context_file_run. cbn [snd golden_sqls instructions vector_store trace].
  split; [reflexivity|]. split; [reflexivity|]. split; [|split].
  - intros key Hkey. apply index_chunks_other. exact Hkey.
  - intros ->. reflexivity.
  - rewrite drop_app_length. unfold ingestion_calls. cbn [app omap list_omap added_document].
    generalize (create_documents 1000 50 content). intros texts.
    assert (Hall : ∀ l : list string, ∀ index,
      length (omap added_document
                (imap (λ i, chunk_call context_files_collection context_file
                              (index + i)%nat) l))
      = length l).
    { induction l as [|x rest IH]; intros index; [reflexivity|].
      rewrite imap_shift. cbn [omap list_omap added_document chunk_call length].
      rewrite IH. reflexivity. }
    exact (Hall texts 0%nat).
Qed.

(** X10. Deleting a file right after it was ingested leaves none of its
    chunks: no identifier that [add_context_file] wrote is in the index
    after [delete_context_file], while records of other collections are
    those that were there before the ingestion. *)
Theorem add_then_delete_context_file context_file content w :
  let w1 := (add_context_file create_documents context_files_collection
               context_file content w).2 in
  let w2 := (delete_context_file context_files_collection context_file w1).2 in
  (∀ i text, create_documents 1000 50 content !! i = Some text →
     vector_store w2
       !! (context_files_collection, ContextFile.id context_file +:+ str i) = None)
  ∧ (∀ key, key.1 ≠ context_files_collection →
       vector_store w2 !! key = vector_store w !! key)
  ∧ golden_sqls w2 = golden_sqls w.
Proof.
  cbv zeta. split; [|split].
  - intros i text Hi.
    destruct (vector_store _ !! _) as [r|] eqn:Hr; [|reflexivity].
    apply delete_context_file_lookup in Hr as [Hr Hnot].
    rewrite add_context_file_run in Hr. cbn [snd vector_store] in Hr.
    pose proof (index_chunks_lookup context_files_collection context_file
                  (create_documents 1000 50 content) 0%nat (vector_store w) i text Hi)
      as Hchunk.
    cbn [Nat.add] in Hchunk. unfold chunk_id in Hchunk. rewrite Hchunk in Hr.
    injection Hr as <-. destruct Hnot. split; [reflexivity|].
    apply chunk_metadata_file_name.
  - intros key Hkey. apply option_eq. intros r.
    rewrite delete_context_file_lookup, add_context_file_run. cbn [snd vector_store].
    rewrite index_chunks_other.
    + split; [tauto|]. intros Hr. split; [exact Hr|]. intros [Heq _]. contradiction.
    + intros i _ ->. apply Hkey. reflexivity.
  - rewrite delete_context_file_run, add_context_file_run. reflexivity.
Qed.

(** X11. [delete_context_file] is idempotent on the index, and it does
    nothing to an index in which no record of the collection has the name of
    the file. *)
Theorem delete_context_file_idempotent context_file w :
  let delete := delete_context_file context_files_collection context_file in
  vector_store (delete (delete w).2).2 = vector_store (delete w).2
  ∧ (map_Forall (λ (key : string * string) r,
                   key.1 = context_files_collection →
                   vr_metadata r !! "file_name"
                   ≠ Some (ContextFile.file_name context_file)) (vector_store w) →
     vector_store (delete w).2 = vector_store w).
Proof.
  cbv zeta. split.
  - apply map_eq. intros key. apply option_eq. intros r.
    rewrite !delete_context_file_lookup. tauto.
  - intros Hnone. apply map_eq. intros key. apply option_eq. intros r.
    rewrite delete_context_file_lookup. split; [tauto|].
    intros Hr. split; [exact Hr|]. intros [Hcoll Hname].
    exact (Hnone key r Hr Hcoll Hname).
Qed.

End ContextFileCollection.

(** The theorem above on the index that holds one chunk: ingesting the file
    again keeps the invariant. *)
Lemma chunks_keep_text_witness :
  chunks_have_text Fixture.context_files_collection
    (vector_store (add_context_file Fixture.create_documents
                     Fixture.context_files_collection Fixture.context_file
                     "orders hold one row per sale" Fixture.indexed_world).2).
Proof.
  refine (proj1 (chunks_keep_text Fixture.Parser_tables Fixture.later
                   Fixture.create_documents
                   Fixture.new_id Fixture.golden_sql_collection
                   Fixture.context_files_collection Fixture.indexed_world
                   Fixture.context_file "orders hold one row per sale" [] [] _)).
  unfold chunks_have_text. apply (bool_decide_unpack _). vm_compute. exact I.
Defined.

(** The theorem above on the index that holds one chunk. *)
Lemma retrieve_context_files_returns_witness :
  ∃ text,
    (retrieve_context_files Fixture.similarity Fixture.context_files_collection
       (Fixture.prompt "what is in orders?") None Fixture.indexed_world).1
    = Returns text.
Proof.
  apply (retrieve_context_files_returns Fixture.similarity
           Fixture.context_files_collection).
  - unfold chunks_have_text. apply (bool_decide_unpack _). vm_compute. exact I.
  - unfold answers_from_index.
    match goal with
    | |- Forall _ ?matches =>
        let computed := eval vm_compute in matches in
        change matches with computed
    end.
    constructor; [|constructor]. eexists. split; [vm_compute|]; reflexivity.
Defined.

(** ** remove_golden_sqls on a store with unique identifiers *)

Lemma filter_all {A : Type} (P : A → Prop) `{!∀ x, Decision (P x)} (l : list A) :
  Forall P l → filter P l = l.
Proof.
  induction 1 as [|x l Hx Hl IH]; [reflexivity|].
  rewrite filter_cons_True by exact Hx. rewrite IH. reflexivity.
Qed.

Lemma NoDup_ids_filter (P : GoldenSQL.t → Prop) `{!∀ g, Decision (P g)} gs :
  NoDup (GoldenSQL.id <$> gs) → NoDup (GoldenSQL.id <$> filter P gs).
Proof.
  induction gs as [|g rest IH]; [intros _; constructor|].
  rewrite fmap_cons. intros [Hhead Hrest]%NoDup_cons.
  rewrite filter_cons. destruct (decide (P g)); [|apply IH; exact Hrest].
  rewrite fmap_cons. apply NoDup_cons. split; [|apply IH; exact Hrest].
  intros Hin. apply Hhead.
  apply list_elem_of_fmap in Hin as (g' & -> & Hg').
  apply list_elem_of_filter in Hg' as [_ Hg'].
  apply list_elem_of_fmap. eauto.
Qed.

Lemma delete_first_unique id gs :
  NoDup (GoldenSQL.id <$> gs) →
  (delete_first id gs).1 = filter (λ g, GoldenSQL.id g ≠ Some id) gs.
Proof.
  induction gs as [|g rest IH]; [reflexivity|].
  rewrite fmap_cons. intros [Hhead Hrest]%NoDup_cons.
  cbn [delete_first]. unfold has_id at 1.
  destruct (decide (GoldenSQL.id g = Some id)) as [Heq|Hne].
  - rewrite bool_decide_eq_true_2 by exact Heq. cbn [fst].
    rewrite filter_cons_False by tauto.
    symmetry. apply filter_all. apply Forall_forall. intros g' Hg' Heq'.
    apply Hhead. rewrite Heq, <- Heq'. apply list_elem_of_fmap. eauto.
  - rewrite bool_decide_eq_false_2 by exact Hne.
    rewrite filter_cons_True by exact Hne. rewrite <- (IH Hrest).
    destruct (delete_first id rest). reflexivity.
Qed.

Lemma removed_unique collection ids : ∀ w,
  NoDup (GoldenSQL.id <$> golden_sqls w) →
  golden_sqls (removed collection ids w) = filter (kept ids) (golden_sqls w).
Proof.
  induction ids as [|id rest IH]; intros w Hnodup.
  - symmetry. apply filter_all. apply Forall_forall. intros g _. constructor.
  - rewrite removed_cons, IH; cbn [remove_one golden_sqls];
      rewrite (delete_first_unique id _ Hnodup).
    + rewrite list_filter_filter. apply list_filter_iff. intros g.
      unfold kept. rewrite Forall_cons. tauto.
    + apply NoDup_ids_filter. exact Hnodup.
Qed.

(** X12. On a record store whose identifiers are unique,
    [remove_golden_sqls] leaves exactly the records that none of the given
    identifiers names, in their order; afterwards [find_by_id] finds no
    record under any of the identifiers, the vector index has no entry
    of the collection under any of them, and its other entries, like the
    instructions, are untouched. *)
Theorem remove_golden_sqls_unique (golden_sql_collection : string) ids w :
  NoDup (GoldenSQL.id <$> golden_sqls w) →
  let w' := (remove_golden_sqls golden_sql_collection ids w).2 in
  golden_sqls w' = filter (kept ids) (golden_sqls w)
  ∧ (∀ id, id ∈ ids → (golden_sqls_find_by_id id w').1 = Returns None)
  ∧ (∀ id, id ∈ ids → vector_store w' !! (golden_sql_collection, id) = None)
  ∧ (∀ key, key ∉ (λ id, (golden_sql_collection, id)) <$> ids →
            vector_store w' !! key = vector_store w !! key)
  ∧ instructions w' = instructions w.
Proof.
  intros Hnodup. cbv zeta. unfold remove_golden_sqls.
  rewrite (bind_returns _ _ _ _ _ (remove_each_run golden_sql_collection ids w)).
  cbn [snd mret M_ret].
  split; [apply removed_unique; exact Hnodup|].
  split; [|split; [|split]].
  - intros id Hid. rewrite find_by_id_run. cbn [fst]. f_equal.
    rewrite (removed_unique _ _ _ Hnodup). apply find_absent.
    intros Hin. apply list_elem_of_fmap in Hin as (g & Hg & Hin).
    apply list_elem_of_filter in Hin as [Hkept _].
    unfold kept in Hkept. rewrite Forall_forall in Hkept.
    exact (Hkept id Hid (eq_sym Hg)).
  - intros id Hid. apply removed_deletes. exact Hid.
  - intros key Hkey. apply removed_other. exact Hkey.
  - apply removed_frame.
Qed.

(** The theorem above on three stored golden SQLs, the second of which is
    removed. *)
Lemma remove_golden_sqls_unique_witness :
  GoldenSQL.id <$>
    golden_sqls (remove_golden_sqls Fixture.golden_sql_collection ["id1"]
                   three_golden_sqls).2
  = [Some "id0"; Some "id2"].
Proof.
  rewrite (proj1 (remove_golden_sqls_unique Fixture.golden_sql_collection ["id1"]
                    three_golden_sqls
                    ltac:(apply (bool_decide_unpack _); vm_compute; exact I))).
  vm_compute. reflexivity.
Defined.

(** ** Request models *)

Lemma field_errors_accepts v :
  DBConnectionValidation.field_errors v = []
  ↔ DBConnectionValidation.object_id_validation v = inr v.
Proof.
  split; [apply field_errors_nil|].
  unfold DBConnectionValidation.field_errors. intros ->. reflexivity.
Qed.

Lemma min_length_errors_nil field limit v :
  min_length_errors field limit v = [] ↔ long_enough limit v.
Proof.
  unfold min_length_errors, long_enough. destruct v as [s|]; [|tauto].
  destruct (len s <? limit)%nat eqn:Hlt.
  - apply Nat.ltb_lt in Hlt. split; [discriminate | lia].
  - apply Nat.ltb_ge in Hlt. tauto.
Qed.

Lemma validated_iff {A : Type} errs (a r : A) :
  validated errs a = Valid r ↔ errs = [] ∧ r = a.
Proof.
  split; [apply validated_valid|]. intros [-> ->]. reflexivity.
Qed.

(** Two accented letters are two characters, in four bytes: too short for
    an instruction. *)
Example two_code_points :
  len "éé" = 2%nat
  ∧ String.length "éé" = 4%nat
  ∧ InstructionRequest.parse "507f1f77bcf86cd799439011" (Some "éé") None
    = ValidationError [MinLengthError "instruction" 3]
  ∧ ∃ r, InstructionRequest.parse "507f1f77bcf86cd799439011" (Some "éée") None = Valid r.
Proof. repeat split. eexists. reflexivity. Qed.

(** X13. The request models validate exactly when [ObjectId] accepts the
    connection id and every length-checked text field is either omitted or
    at least three characters long, counted in code points as [len] does:
    [instruction] for [InstructionRequest], [question] and [sql_query] for
    [GoldenSQLRequest], none for [ScannerRequest]. The model built keeps the
    values as given. *)
Theorem request_models_validate conn :
  (∀ instr md r,
     InstructionRequest.parse conn instr md = Valid r
     ↔ DBConnectionValidation.object_id_validation conn = inr conn
       ∧ long_enough 3 instr
       ∧ r = {| InstructionRequest.db_connection_id := conn;
                InstructionRequest.instruction := instr;
                InstructionRequest.metadata := md |})
  ∧ (∀ q s now md r,
       GoldenSQLRequest.parse conn q s now md = Valid r
       ↔ DBConnectionValidation.object_id_validation conn = inr conn
         ∧ long_enough 3 q ∧ long_enough 3 s
         ∧ r = {| GoldenSQLRequest.db_connection_id := conn;
                  GoldenSQLRequest.question := q;
                  GoldenSQLRequest.sql_query := s;
                  GoldenSQLRequest.created_at := now;
                  GoldenSQLRequest.metadata := md |})
  ∧ (∀ tables md r,
       ScannerRequest.parse conn tables md = Valid r
       ↔ DBConnectionValidation.object_id_validation conn = inr conn
         ∧ r = {| ScannerRequest.db_connection_id := conn;
                  ScannerRequest.table_names := tables;
                  ScannerRequest.metadata := md |}).
Proof.
  split; [|split].
  - intros instr md r. unfold InstructionRequest.parse.
    rewrite validated_iff, app_nil, field_errors_accepts, min_length_errors_nil. tauto.
  - intros q s now0 md r. unfold GoldenSQLRequest.parse.
    rewrite validated_iff, !app_nil, field_errors_accepts, !min_length_errors_nil. tauto.
  - intros tables md r. unfold ScannerRequest.parse.
    rewrite validated_iff, field_errors_accepts. tauto.
Qed.

(** X14. [FineTuningRequest] takes any string as its connection id: it
    validates identifiers that the models inheriting the [ObjectId] check
    reject, such as every string whose length is not 24. *)
Theorem fine_tuning_request_unchecked conn alias_ llm gs md :
  String.length conn ≠ 24%nat →
  FineTuningRequest.parse conn alias_ llm gs md
  = Valid {| FineTuningRequest.db_connection_id := conn;
             FineTuningRequest.alias := alias_;
             FineTuningRequest.base_llm := llm;
             FineTuningRequest.golden_sqls := gs;
             FineTuningRequest.metadata := md |}
  ∧ DBConnectionValidation.parse conn
    = ValidationError [ValueError "db_connection_id" "Must be a valid ObjectId"]
  ∧ (∀ tables md', ScannerRequest.parse conn tables md'
                   = ValidationError
                       [ValueError "db_connection_id" "Must be a valid ObjectId"])
  ∧ (∀ instr md', ∃ errors, InstructionRequest.parse conn instr md'
                            = ValidationError errors)
  ∧ (∀ q s now md', ∃ errors, GoldenSQLRequest.parse conn q s now md'
                              = ValidationError errors).
Proof.
  intros Hlen.
  assert (Herr : DBConnectionValidation.field_errors conn
                 = [ValueError "db_connection_id" "Must be a valid ObjectId"]).
  { unfold DBConnectionValidation.field_errors.
    destruct (validation_total conn) as [H|H].
    - apply validation_accepts in H as [H _]. contradiction.
    - rewrite H. reflexivity. }
  split; [reflexivity|].
  split; [unfold DBConnectionValidation.parse; rewrite Herr; reflexivity|].
  split; [intros tables md'; unfold ScannerRequest.parse; rewrite Herr; reflexivity|].
  split.
  - intros instr md'. unfold InstructionRequest.parse. rewrite Herr. eexists. reflexivity.
  - intros q s now0 md'. unfold GoldenSQLRequest.parse. rewrite Herr.
    eexists. reflexivity.
Qed.

(** The theorem above on a four-character identifier. *)
Lemma fine_tuning_request_unchecked_witness :
  ∃ r, FineTuningRequest.parse "507f" "orders-model"
         {| BaseLLM.model_provider := None; BaseLLM.model_name := None;
            BaseLLM.model_parameters := None |} None None
       = Valid r
       ∧ FineTuningRequest.db_connection_id r = "507f".
Proof.
  eexists. split.
  - apply (fine_tuning_request_unchecked "507f"). simpl. lia.
  - reflexivity.
Defined.

(** ** Leftovers of repeated writes *)

Section Leftovers.

Variable create_documents : Z → Z → string → list string.
Variable context_files_collection : string.

(** X16. [add_context_file] never deletes: when a file is ingested again
    with a content that makes fewer chunks, the chunks of the earlier
    ingestion beyond the new count are still in the index, under their
    identifiers and with their old text. *)
Theorem reingestion_keeps_surplus_chunks context_file content content' w i text :
  create_documents 1000 50 content !! i = Some text →
  (length (create_documents 1000 50 content') ≤ i)%nat →
  let first := add_context_file create_documents context_files_collection
                 context_file content w in
  let second := add_context_file create_documents context_files_collection
                  context_file content' first.2 in
  second.1 = Returns true
  ∧ vector_store second.2
      !! (context_files_collection, ContextFile.id context_file +:+ str i)
    = Some (chunk_record context_file text).
Proof.
  intros Hi Hshort. cbv zeta. rewrite !add_context_file_run. cbn [fst snd vector_store].
  split; [reflexivity|].
  rewrite index_chunks_other.
  - exact (index_chunks_lookup context_files_collection context_file _ 0%nat
             (vector_store w) i text Hi).
  - intros j Hj [= Heq]. cbn [Nat.add] in Heq.
    apply (chunk_id_inj context_file i j) in Heq. lia.
Qed.

End Leftovers.

(** The theorem above on a long document ingested before a short one: the
    third chunk of the long document is still indexed. *)
Lemma reingestion_keeps_surplus_chunks_witness :
  ∃ text,
    vector_store
      (add_context_file Fixture.create_documents Fixture.context_files_collection
         Fixture.context_file "orders hold one row per sale"
         (add_context_file Fixture.create_documents Fixture.context_files_collection
            Fixture.context_file Fixture.long_content Fixture.empty_world).2).2
      !! (Fixture.context_files_collection,
          ContextFile.id Fixture.context_file +:+ str 2)
    = Some (chunk_record Fixture.context_file text).
Proof.
  eexists.
  refine (proj2 (reingestion_keeps_surplus_chunks Fixture.create_documents
                   Fixture.context_files_collection Fixture.context_file
                   Fixture.long_content "orders hold one row per sale"
                   Fixture.empty_world 2 _ _ _)).
  - vm_compute. reflexivity.
  - vm_compute. lia.
Defined.
